(** * arcana.ai — the chat route [src/app/api/chat/[chatId]/route.ts]

    A shallow embedding of the word-overlap scorer [analyzeMessageSimilarity]
    and of the [POST] handler, with the properties its specification states
    about them; then of the [PATCH] and [DELETE] handlers of the companion
    route and of the emoji filter of the chat view, with properties read off
    their code.

    Conventions of the embedding.
    - A JavaScript string is a [string] of 8-bit characters: the development
      covers ASCII text, on which [length], [toLowerCase], [split] and [trim]
      are the functions below (characters above 127 are left alone).
    - A [Map] is an association list in insertion order, which is the order
      [Map.prototype.forEach] visits.
    - Word counts are [nat]; the quotient [commonWords / max(...)] is an exact
      rational.  Both operands are integers far below 2^50, so the IEEE
      double quotient is above the double [0.6] exactly when the rational
      one is above 6/10, and [0 / 0] (NaN in JavaScript, [0] in [Q]) compares
      false on both sides.
    - The collaborators of the handler (Clerk, Prisma, the rate limiter, the
      memory manager, Replicate) are not part of the route: what each of
      their calls answers, and after how long, is the [World] of a request.
      The handler is a function of the world, in a monad that threads a
      clock with the deadline timer and the trace of the calls made, and
      that ends with a value, with an exception, or never. *)

From Stdlib Require Import List String Ascii Bool Arith NArith ZArith QArith Lia.
From Stdlib Require Import Permutation.
Import ListNotations.

Local Open Scope string_scope.
Local Open Scope list_scope.
Local Open Scope nat_scope.

(** ** Strings *)

Module Js.

(** ["\n"] *)
Definition LF : ascii := ascii_of_nat 10.
Definition SPACE : ascii := " "%char.
Definition nl : string := String LF "".

(** [s.length > 0] *)
Definition nonEmpty (s : string) : bool := 0 <? String.length s.

(** [!s] for a string: only the empty string is falsy. *)
Definition falsy (s : string) : bool :=
  match s with EmptyString => true | String _ _ => false end.

(** [s || d] for a string. *)
Definition orElse (s d : string) : string := if falsy s then d else s.

(** [n || 0] for the result of [Map.get] on a map of numbers. *)
Definition orZero (o : option nat) : nat :=
  match o with Some n => n | None => 0 end.

Definition lowerChar (c : ascii) : ascii :=
  let n := nat_of_ascii c in
  if (65 <=? n) && (n <=? 90) then ascii_of_nat (n + 32) else c.

(** [s.toLowerCase()] *)
Fixpoint toLowerCase (s : string) : string :=
  match s with
  | EmptyString => EmptyString
  | String c s' => String (lowerChar c) (toLowerCase s')
  end.

(** [s.split(sep)] for a one-character separator: the pieces between the
    separators, empty pieces included; never the empty array. *)
Fixpoint split (sep : ascii) (s : string) : list string :=
  match s with
  | EmptyString => [EmptyString]
  | String c s' =>
      if Ascii.eqb c sep then EmptyString :: split sep s'
      else match split sep s' with
           | w :: ws => String c w :: ws
           | [] => [String c EmptyString]
           end
  end.

(** [xs.join(sep)] *)
Fixpoint join (sep : string) (xs : list string) : string :=
  match xs with
  | [] => EmptyString
  | [x] => x
  | x :: xs' => x ++ sep ++ join sep xs'
  end.

(** The white space [trim] removes, within ASCII: TAB, LF, VT, FF, CR and
    the space. *)
Definition isWhite (c : ascii) : bool :=
  let n := nat_of_ascii c in
  ((9 <=? n) && (n <=? 13)) || (n =? 32).

Fixpoint trimStart (s : string) : string :=
  match s with
  | EmptyString => EmptyString
  | String c s' => if isWhite c then trimStart s' else s
  end.

Fixpoint trimEnd (s : string) : string :=
  match s with
  | EmptyString => EmptyString
  | String c s' =>
      match trimEnd s' with
      | EmptyString => if isWhite c then EmptyString else String c EmptyString
      | t => String c t
      end
  end.

(** [s.trim()] *)
Definition trim (s : string) : string := trimEnd (trimStart s).

(** [s.includes(sub)] for a non-empty [sub]. *)
Definition includes (sub s : string) : bool :=
  match String.index 0 sub s with Some _ => true | None => false end.

End Js.

(** ** [Map] from words to counts *)

Module WordMap.

Definition t : Type := list (string * nat).

Definition empty : t := [].

Fixpoint get (m : t) (k : string) : option nat :=
  match m with
  | [] => None
  | (k', v) :: m' => if String.eqb k' k then Some v else get m' k
  end.

Definition has (m : t) (k : string) : bool :=
  match get m k with Some _ => true | None => false end.

(** [set] overwrites the value of a present key where it stands, and appends
    an absent key at the end. *)
Fixpoint set (m : t) (k : string) (v : nat) : t :=
  match m with
  | [] => [(k, v)]
  | (k', v') :: m' =>
      if String.eqb k' k then (k', v) :: m' else (k', v') :: set m' k v
  end.

Definition keys (m : t) : list string := map fst m.

(** [m.forEach((value, key) => ...)] threading an accumulator. *)
Definition forEach {A : Type} (m : t) (f : A -> nat -> string -> A) (a : A) : A :=
  fold_left (fun acc kv => f acc (snd kv) (fst kv)) m a.

End WordMap.

(** ** The scorer (route.ts, lines 19-44) *)

Definition createWordMap (words : list string) : WordMap.t :=
  fold_left
    (fun wordMap word =>
       WordMap.set wordMap word (Js.orZero (WordMap.get wordMap word) + 1))
    words WordMap.empty.

(** [c / m > 0.6] *)
Definition ratioAbove (c m : nat) : bool :=
  negb (Qle_bool (inject_Z (Z.of_nat c) / inject_Z (Z.of_nat m)) (6 # 10)).

Definition words (s : string) : list string :=
  filter Js.nonEmpty (Js.split Js.SPACE (Js.toLowerCase s)).

Definition commonWords (msgWordMap promptWordMap : WordMap.t) : nat :=
  WordMap.forEach msgWordMap
    (fun commonWords count word =>
       if WordMap.has promptWordMap word
       then commonWords + Nat.min count (Js.orZero (WordMap.get promptWordMap word))
       else commonWords)
    0.

Definition analyzeMessageSimilarity (msg prompt : string) : bool :=
  if Js.falsy msg then false
  else
    let msgWords := words msg in
    let promptWords := words prompt in
    let msgWordMap := createWordMap msgWords in
    let promptWordMap := createWordMap promptWords in
    ratioAbove (commonWords msgWordMap promptWordMap)
               (Nat.max (List.length msgWords) (List.length promptWords)).

(** ** The scorer as the specification words it

    Section 4.4: lower-case and tokenize both strings, discarding empty
    tokens; a token -> count mapping for each; [commonWords] is the sum, over
    the tokens present in both mappings, of the smaller count; the answer is
    [commonWords / max(|tokensA|, |tokensB|) > 0.6].  The tokenizer is
    parameterised by the set of separator characters. *)

Module Reference.

Definition flush (cur : string) : list string :=
  match cur with EmptyString => [] | _ => [cur] end.

(** Maximal runs of non-separator characters, left to right; [cur] is the
    run being read. *)
Fixpoint tokenize (isSep : ascii -> bool) (cur s : string) : list string :=
  match s with
  | EmptyString => flush cur
  | String c s' =>
      if isSep c then flush cur ++ tokenize isSep EmptyString s'
      else tokenize isSep (cur ++ String c EmptyString)%string s'
  end.

Definition tokens (isSep : ascii -> bool) (s : string) : list string :=
  tokenize isSep EmptyString (Js.toLowerCase s).

Definition countOf (toks : list string) (t : string) : nat :=
  count_occ string_dec toks t.

Definition member (t : string) (toks : list string) : bool :=
  existsb (String.eqb t) toks.

(** The tokens present in both mappings, each once. *)
Definition shared (tokensA tokensB : list string) : list string :=
  nodup string_dec (filter (fun t => member t tokensB) tokensA).

Definition commonWords (tokensA tokensB : list string) : nat :=
  list_sum
    (map (fun t => Nat.min (countOf tokensA t) (countOf tokensB t))
         (shared tokensA tokensB)).

Definition isRepetitive (isSep : ascii -> bool) (candidate reference : string) : bool :=
  match candidate with
  | EmptyString => false
  | _ =>
      let tokensA := tokens isSep candidate in
      let tokensB := tokens isSep reference in
      ratioAbove (commonWords tokensA tokensB)
                 (Nat.max (List.length tokensA) (List.length tokensB))
  end.

(** Separators of a white-space tokenizer. *)
Definition whitespace : ascii -> bool := Js.isWhite.

(** The only separator of [split(" ")]. *)
Definition spaceOnly (c : ascii) : bool := Ascii.eqb c Js.SPACE.

End Reference.

(** ** Data of the handler *)

Inductive Role : Type := user | system.

Record Message : Type := mkMessage {
  role : Role;
  content : string
}.

Record Companion : Type := mkCompanion {
  id : string;
  name : string;
  instructions : string;
  seed : string;
  (** the [include: { messages: ... }] of the lookup: this user's turns,
      newest first, at most ten *)
  messages : list Message
}.

(** What [currentUser()] resolves to, when it is not [null]. *)
Record User : Type := mkUser {
  firstName : option string;
  uid : string
}.

Record CompanionKey : Type := mkCompanionKey {
  companionName : string;
  userId : string;
  modelName : string
}.

Record Document : Type := mkDocument { pageContent : string }.

(** What [replicate.run] resolves to: a string, or the array of string
    pieces of a language model. *)
Inductive ModelOutput : Type :=
| Text (s : string)
| Pieces (ps : list string).

(** [String(modelResponse)] *)
Definition String_ (o : ModelOutput) : string :=
  match o with
  | Text s => s
  | Pieces ps => Js.join "," ps
  end.

Inductive Response : Type :=
| NextResponse (body : string) (status : nat)
| StreamingTextResponse (chunks : list string).

Definition statusOf (r : Response) : nat :=
  match r with
  | NextResponse _ st => st
  | StreamingTextResponse _ => 200
  end.

Module CONFIG.
Definition TIMEOUT_MS : N := 30000.
Definition MAX_LENGTH : nat := 512.
Definition MODELS_default : string :=
  "a16z-infra/llama-2-13b-chat:df7690f1994d94e96ad9d568eac121aecf50684a0b0963b25a41cc40061269e5".
End CONFIG.

(** ** Promises, time and effects

    Every call to a collaborator returns a promise.  How it settles is an
    input of the request: after how many milliseconds, and with what.  The
    handler's own computation takes no time. *)

Inductive Promise (A : Type) : Type :=
| Fulfils (after : N) (v : A)
| Rejects (after : N)
| Never.
Arguments Fulfils {A} after v.
Arguments Rejects {A} after.
Arguments Never {A}.

(** The calls the handler makes, with their arguments. *)
Inductive Event : Type :=
| RateLimit (key : string)
| FindUnique (chatId userId : string) (take : nat)
| GetInstance
| MessageCreate (content : string) (role : Role) (userId companionId : string)
| ReadLatestHistory (key : CompanionKey)
| VectorSearch (companionId fileName : string)
| SeedChatHistory (seed delimiter : string) (key : CompanionKey)
| ReplicateRun (model prompt : string) (max_tokens : nat)
| WriteToHistory (text : string) (key : CompanionKey)
| CompanionUpdate (chatId content : string) (role : Role) (userId : string)
| ConsoleError (tag : string).

(** The timer of [setTimeout(() => controller.abort(), ...)]. *)
Inductive Timer : Type :=
| Unset
| Pending (fireAt : N)
| Fired
| Cleared.

Record Clock : Type := mkClock {
  now : N;               (* milliseconds since the handler was entered *)
  timer : Timer;
  aborted : bool         (* controller.signal.aborted *)
}.

Record State : Type := mkState {
  clock : Clock;
  trace : list Event     (* calls made so far, oldest first *)
}.

Definition initial : State :=
  {| clock := {| now := 0; timer := Unset; aborted := false |}; trace := [] |}.

(** How a computation ends: with a value, with an exception, or never. *)
Inductive Outcome (A : Type) : Type :=
| Value (a : A)
| Thrown
| Stuck.
Arguments Value {A} a.
Arguments Thrown {A}.
Arguments Stuck {A}.

Definition M (A : Type) : Type := State -> State * Outcome A.

Definition ret {A} (a : A) : M A := fun s => (s, Value a).

Definition bind {A B} (m : M A) (k : A -> M B) : M B :=
  fun s =>
    match m s with
    | (s', Value a) => k a s'
    | (s', Thrown) => (s', Thrown)
    | (s', Stuck) => (s', Stuck)
    end.

Notation "x <- m ;; k" := (bind m (fun x => k))
  (at level 61, m at next level, right associativity).
Notation "' pat <- m ;; k" := (bind m (fun x => match x with pat => k end))
  (at level 61, pat pattern, m at next level, right associativity).
Notation "m ;;; k" := (bind m (fun _ => k))
  (at level 61, k at level 200, right associativity).

(** [try { body } catch { handler }]: only an exception reaches the handler. *)
Definition tryCatch {A} (body handler : M A) : M A :=
  fun s =>
    match body s with
    | (s', Thrown) => handler s'
    | r => r
    end.

(** The timer callback [controller.abort()] runs. *)
Definition fire (c : Clock) : Clock :=
  {| now := now c; timer := Fired; aborted := true |}.

(** Time passes until [t]; a pending timer whose time has come fires. *)
Definition tick (t : N) (c : Clock) : Clock :=
  let c' := {| now := N.max (now c) t; timer := timer c; aborted := aborted c |} in
  match timer c with
  | Pending fireAt => if (fireAt <=? N.max (now c) t)%N then fire c' else c'
  | _ => c'
  end.

(** Time passes without bound. *)
Definition forever (c : Clock) : Clock :=
  match timer c with
  | Pending _ => fire c
  | _ => c
  end.

Definition onClock (f : Clock -> Clock) (s : State) : State :=
  {| clock := f (clock s); trace := trace s |}.

Definition setTimeout (ms : N) : M unit :=
  fun s =>
    (onClock (fun c => {| now := now c; timer := Pending (now c + ms);
                          aborted := aborted c |}) s, Value tt).

Definition clearTimeout : M unit :=
  fun s =>
    (onClock (fun c => {| now := now c;
                          timer := match timer c with Pending _ => Cleared | t => t end;
                          aborted := aborted c |}) s, Value tt).

Definition emit (e : Event) : M unit :=
  fun s => ({| clock := clock s; trace := trace s ++ [e] |}, Value tt).

(** A promise of the world, started now: its settling time becomes absolute. *)
Definition startAt {A} (t0 : N) (p : Promise A) : Promise A :=
  match p with
  | Fulfils after v => Fulfils (t0 + after) v
  | Rejects after => Rejects (t0 + after)
  | Never => Never
  end.

(** Make the call [e], whose promise behaves as [p]; do not wait for it. *)
Definition invoke {A} (e : Event) (p : Promise A) : M (Promise A) :=
  fun s =>
    ({| clock := clock s; trace := trace s ++ [e] |},
     Value (startAt (now (clock s)) p)).

(** [await p] for a started promise. *)
Definition await {A} (p : Promise A) : M A :=
  fun s =>
    match p with
    | Fulfils t v => (onClock (tick t) s, Value v)
    | Rejects t => (onClock (tick t) s, Thrown)
    | Never => (onClock forever s, Stuck)
    end.

(** [Promise.all([p, q])]: rejected as soon as one of them is, fulfilled once
    both are. *)
Definition all2 {A B} (p : Promise A) (q : Promise B) : Promise (A * B) :=
  match p, q with
  | Rejects t, Rejects u => Rejects (N.min t u)
  | Rejects t, _ => Rejects t
  | _, Rejects u => Rejects u
  | Fulfils t a, Fulfils u b => Fulfils (N.max t u) (a, b)
  | _, _ => Never
  end.

Definition all3 {A B C} (p : Promise A) (q : Promise B) (r : Promise C)
  : Promise (A * B * C) :=
  all2 (all2 p q) r.

(** [await f(...)]: make the call and wait for it. *)
Definition call {A} (e : Event) (p : Promise A) : M A :=
  pr <- invoke e p ;; await pr.

(** An awaited expression that makes no call of the collaborators traced
    here ([request.json()], [currentUser()]). *)
Definition awaitNow {A} (p : Promise A) : M A :=
  fun s => await (startAt (now (clock s)) p) s.

(** ** The world of one request

    What every awaited expression of the handler settles to.  The body of
    the request is taken to carry a string [prompt]; a body that cannot be
    parsed is a rejected [json]. *)

Record World : Type := mkWorld {
  url : string;                                  (* request.url *)
  chatId : string;                               (* (await params).chatId *)
  json : Promise string;                         (* request.json(), its prompt *)
  currentUser : Promise (option User);
  ratelimit : Promise bool;                      (* its .success *)
  findUnique : Promise (option Companion);
  getInstance : Promise unit;
  messageCreate : Promise unit;
  readLatestHistory : Promise (list string);
  vectorSearch : Promise (option (list Document));
  seedChatHistory : Promise unit;
  replicateRun : Promise ModelOutput;
  writeToHistory : Promise unit;
  companionUpdate : Promise unit
}.

(** ** The handler (route.ts, lines 46-186) *)

(** [!user?.firstName || !user?.id] negated: the user, when the request goes
    on. *)
Definition identified (u : option User) : option User :=
  match u with
  | Some usr =>
      match firstName usr with
      | Some fn => if Js.falsy fn || Js.falsy (uid usr) then None else Some usr
      | None => None
      end
  | None => None
  end.

Definition roleLabel (c : Companion) (msg : Message) : string :=
  match role msg with user => "User" | system => name c end.

(** Lines 118-121. *)
Definition messageHistory (c : Companion) (recentMessages : list Message) : string :=
  Js.join Js.nl
    (rev (map (fun msg => roleLabel c msg ++ ": " ++ content msg)%string recentMessages)).

(** Lines 123-125. *)
Definition relevantHistory (similarDocs : option (list Document)) : string :=
  match similarDocs with
  | Some (d :: ds) => Js.join Js.nl (map pageContent (d :: ds))
  | _ => ""
  end.

(** The template literal of lines 138-144. *)
Definition generationPrompt (c : Companion) (prompt history : string) : string :=
  ("<|system|>" ++ Js.nl ++
   "You are " ++ name c ++ ". Focus on: " ++ prompt ++ Js.nl ++
   instructions c ++ Js.nl ++
   "Recent context:" ++ Js.nl ++
   history ++ Js.nl ++
   "Current question: " ++ prompt ++ Js.nl ++
   "<|assistant|>")%string.

(** [String(modelResponse).split("\n")[0]] *)
Definition finalResponseOf (modelResponse : ModelOutput) : string :=
  hd EmptyString (Js.split Js.LF (String_ modelResponse)).

(** Lines 100-180: from the memory operations on.  [isRepetitive] and
    [lastResponse] are the constants computed at lines 95-98. *)
Definition afterAnalysis (w : World) (prompt : string) (usr : User)
    (companion : Companion) (messagePromise : Promise unit)
    (isRepetitive : bool) (lastResponse : string) : M Response :=
  let recentMessages := messages companion in
  let companionKey :=
    {| companionName := id companion; userId := uid usr;
       modelName := "meta/meta-llama-3-8b-instruct" |} in
  p1 <- invoke (ReadLatestHistory companionKey) (readLatestHistory w) ;;
  p2 <- invoke (VectorSearch (id companion) (id companion ++ ".txt")%string)
               (vectorSearch w) ;;
  '(records, similarDocs) <- await (all2 p1 p2) ;;
  (if List.length records =? 0
   then call (SeedChatHistory (seed companion) (Js.nl ++ Js.nl)%string companionKey)
             (seedChatHistory w)
   else ret tt) ;;;
  let history := messageHistory companion recentMessages in
  let relevant := relevantHistory similarDocs in
  await messagePromise ;;;
  modelResponse <-
    call (ReplicateRun CONFIG.MODELS_default
            (generationPrompt companion prompt history) CONFIG.MAX_LENGTH)
         (replicateRun w) ;;
  let finalResponse := finalResponseOf modelResponse in
  (if 1 <? String.length finalResponse
   then
     q1 <- invoke (WriteToHistory
                     ("User: " ++ prompt ++ Js.nl ++ Js.trim finalResponse)%string
                     companionKey)
                  (writeToHistory w) ;;
     q2 <- invoke (CompanionUpdate (chatId w) (Js.trim finalResponse) system (uid usr))
                  (companionUpdate w) ;;
     await (all2 q1 q2) ;;; ret tt
   else ret tt) ;;;
  ret (StreamingTextResponse [finalResponse]).

(** Lines 95-97: the repetition signal, [recentMessages.some(...)]. *)
Definition isRepetitiveOf (recentMessages : list Message) (prompt : string) : bool :=
  existsb (fun msg => analyzeMessageSimilarity (Js.orElse (content msg) "") prompt)
          recentMessages.

(** Lines 51-98: the body of the [try] up to the message analysis, with the
    computation of the repetition signal as a parameter. *)
Definition tryBodyWith (signal : list Message -> string -> bool) (w : World)
  : M Response :=
  prompt <- awaitNow (json w) ;;
  u <- awaitNow (currentUser w) ;;
  match identified u with
  | None => ret (NextResponse "Unauthorized" 401)
  | Some usr =>
      p1 <- invoke (RateLimit (url w ++ "-" ++ uid usr)%string) (ratelimit w) ;;
      p2 <- invoke (FindUnique (chatId w) (uid usr) 10) (findUnique w) ;;
      p3 <- invoke GetInstance (getInstance w) ;;
      '(rateLimitResult, found, memoryManager) <- await (all3 p1 p2 p3) ;;
      if negb rateLimitResult then ret (NextResponse "Rate limit exceeded" 429)
      else
        match found with
        | None => ret (NextResponse "Companion not found" 404)
        | Some companion =>
            messagePromise <-
              invoke (MessageCreate prompt user (uid usr) (id companion))
                     (messageCreate w) ;;
            let recentMessages := messages companion in
            let isRepetitive := signal recentMessages prompt in
            let lastResponse :=
              Js.orElse (match recentMessages with m :: _ => content m | [] => "" end) "" in
            afterAnalysis w prompt usr companion messagePromise isRepetitive lastResponse
        end
  end.

Definition catchBlock : M Response :=
  clearTimeout ;;;
  emit (ConsoleError "[CHAT_POST]") ;;;
  ret (NextResponse "Internal Error" 500).

(** Lines 46-186, for a given computation of the repetition signal. *)
Definition POSTWith (signal : list Message -> string -> bool) (w : World)
  : M Response :=
  setTimeout CONFIG.TIMEOUT_MS ;;;
  tryCatch (tryBodyWith signal w) catchBlock.

(** The handler: the signal is the scorer run over the recent turns. *)
Definition tryBody (w : World) : M Response := tryBodyWith isRepetitiveOf w.

Definition POST (w : World) : M Response := POSTWith isRepetitiveOf w.

(** One request, from the entry of the handler. *)
Definition run (w : World) : State * Outcome Response := POST w initial.

Definition responseOf (w : World) : Outcome Response := snd (run w).
Definition callsOf (w : World) : list Event := trace (fst (run w)).
Definition timerAfter (w : World) : Timer := timer (clock (fst (run w))).
Definition elapsed (w : World) : N := now (clock (fst (run w))).

(** ** Observations on a request *)

Definition fulfilled {A} (p : Promise A) : option A :=
  match p with Fulfils _ v => Some v | _ => None end.

(** The request passes the gates of lines 55-81: the prompt, the user and
    the companion it goes on with. *)
Definition admission (w : World) : option (string * User * Companion) :=
  match fulfilled (json w), fulfilled (currentUser w) with
  | Some prompt, Some ou =>
      match identified ou with
      | Some usr =>
          match fulfilled (ratelimit w), fulfilled (findUnique w),
                fulfilled (getInstance w) with
          | Some true, Some (Some c), Some _ => Some (prompt, usr, c)
          | _, _, _ => None
          end
      | None => None
      end
  | _, _ => None
  end.

(** Both memory reads of line 107 resolve, and so does the seeding when it
    is due: the records and documents the handler goes on with. *)
Definition composition (w : World) : option (list string * option (list Document)) :=
  match fulfilled (readLatestHistory w), fulfilled (vectorSearch w) with
  | Some records, Some docs =>
      match records, fulfilled (seedChatHistory w) with
      | [], None => None
      | _, _ => Some (records, docs)
      end
  | _, _ => None
  end.

(** The request gets as far as the call of line 136. *)
Definition reachesGeneration (w : World) : option (string * User * Companion) :=
  match admission w, composition w, fulfilled (messageCreate w) with
  | Some a, Some _, Some _ => Some a
  | _, _, _ => None
  end.

Definition isRateCheck (e : Event) : bool :=
  match e with RateLimit _ => true | _ => false end.
Definition isHistoryRead (e : Event) : bool :=
  match e with ReadLatestHistory _ => true | _ => false end.
Definition isGeneration (e : Event) : bool :=
  match e with ReplicateRun _ _ _ => true | _ => false end.
Definition isSeeding (e : Event) : bool :=
  match e with SeedChatHistory _ _ _ => true | _ => false end.
Definition isHistoryAppend (e : Event) : bool :=
  match e with WriteToHistory _ _ => true | _ => false end.
Definition isSystemTurn (e : Event) : bool :=
  match e with CompanionUpdate _ _ _ _ => true | _ => false end.
Definition isUserTurn (e : Event) : bool :=
  match e with MessageCreate _ _ _ _ => true | _ => false end.

Definition made (kind : Event -> bool) (w : World) : bool :=
  existsb kind (callsOf w).
Definition countCalls (kind : Event -> bool) (w : World) : nat :=
  List.length (filter kind (callsOf w)).

Definition abortedAfter (w : World) : bool := aborted (clock (fst (run w))).

(** The same world with another behaviour of the generation call. *)
Definition withReplicateRun (w : World) (p : Promise ModelOutput) : World :=
  {| url := url w; chatId := chatId w; json := json w;
     currentUser := currentUser w; ratelimit := ratelimit w;
     findUnique := findUnique w; getInstance := getInstance w;
     messageCreate := messageCreate w;
     readLatestHistory := readLatestHistory w; vectorSearch := vectorSearch w;
     seedChatHistory := seedChatHistory w; replicateRun := p;
     writeToHistory := writeToHistory w; companionUpdate := companionUpdate w |}.

(** The same world with another result of the archival search. *)
Definition withVectorSearch (w : World) (p : Promise (option (list Document))) : World :=
  {| url := url w; chatId := chatId w; json := json w;
     currentUser := currentUser w; ratelimit := ratelimit w;
     findUnique := findUnique w; getInstance := getInstance w;
     messageCreate := messageCreate w;
     readLatestHistory := readLatestHistory w; vectorSearch := p;
     seedChatHistory := seedChatHistory w; replicateRun := replicateRun w;
     writeToHistory := writeToHistory w; companionUpdate := companionUpdate w |}.

(** ** Sample requests *)

Definition ann : User := {| firstName := Some "Ann"; uid := "u1" |}.

Definition bot : Companion :=
  {| id := "c1"; name := "Bot"; instructions := "Be kind.";
     seed := "Human: hi";
     messages := [mkMessage system "second"; mkMessage user "first"] |}.

Definition rambling : string :=
  ("Hello there" ++ Js.nl ++ "I am rambling more")%string.

(** A request to [/api/chat/c1] with the prompt "hi there", parameterised by
    what the collaborators answer; every call settles within milliseconds
    but the generation call, whose behaviour is a parameter. *)
Definition sample (who : option User) (rate : Promise bool)
    (found : Promise (option Companion)) (userTurn : Promise unit)
    (history : Promise (list string))
    (archive : Promise (option (list Document)))
    (generation : Promise ModelOutput) : World :=
  {| url := "http://h/api/chat/c1"; chatId := "c1";
     json := Fulfils 1 "hi there";
     currentUser := Fulfils 2 who;
     ratelimit := rate;
     findUnique := found;
     getInstance := Fulfils 3 tt;
     messageCreate := userTurn;
     readLatestHistory := history;
     vectorSearch := archive;
     seedChatHistory := Fulfils 2 tt;
     replicateRun := generation;
     writeToHistory := Fulfils 3 tt;
     companionUpdate := Fulfils 4 tt |}.

Definition shire : list Document := [mkDocument "Frodo lives in the Shire."].

(** Everything succeeds, quickly. *)
Definition quick : World :=
  sample (Some ann) (Fulfils 5 true) (Fulfils 7 (Some bot)) (Fulfils 4 tt)
         (Fulfils 6 ["Human: hi"]) (Fulfils 9 (Some shire))
         (Fulfils 900 (Text rambling)).

Definition anonymous : World :=
  sample None (Fulfils 5 true) (Fulfils 7 (Some bot)) (Fulfils 4 tt)
         (Fulfils 6 ["Human: hi"]) (Fulfils 9 (Some shire))
         (Fulfils 900 (Text rambling)).

Definition limited : World :=
  sample (Some ann) (Fulfils 5 false) (Fulfils 7 (Some bot)) (Fulfils 4 tt)
         (Fulfils 6 ["Human: hi"]) (Fulfils 9 (Some shire))
         (Fulfils 900 (Text rambling)).

Definition unknownCompanion : World :=
  sample (Some ann) (Fulfils 5 true) (Fulfils 7 None) (Fulfils 4 tt)
         (Fulfils 6 ["Human: hi"]) (Fulfils 9 (Some shire))
         (Fulfils 900 (Text rambling)).

(** The rate limiter refuses while the companion lookup fails. *)
Definition limitedLookupDown : World :=
  sample (Some ann) (Fulfils 5 false) (Rejects 7) (Fulfils 4 tt)
         (Fulfils 6 ["Human: hi"]) (Fulfils 9 (Some shire))
         (Fulfils 900 (Text rambling)).

(** Only the write of the user turn fails. *)
Definition userTurnLost : World :=
  sample (Some ann) (Fulfils 5 true) (Fulfils 7 (Some bot)) (Rejects 4)
         (Fulfils 6 ["Human: hi"]) (Fulfils 9 (Some shire))
         (Fulfils 900 (Text rambling)).

(** A first request: the history is empty. *)
Definition firstEver : World :=
  sample (Some ann) (Fulfils 5 true) (Fulfils 7 (Some bot)) (Fulfils 4 tt)
         (Fulfils 6 []) (Fulfils 9 (Some shire))
         (Fulfils 900 (Text rambling)).

(** The history is empty and the archival search fails. *)
Definition firstEverSearchDown : World :=
  sample (Some ann) (Fulfils 5 true) (Fulfils 7 (Some bot)) (Fulfils 4 tt)
         (Fulfils 6 []) (Rejects 9)
         (Fulfils 900 (Text rambling)).

(** The prompt the handler builds for [quick]. *)
Definition quickPrompt : string :=
  ("<|system|>" ++ Js.nl ++
   "You are Bot. Focus on: hi there" ++ Js.nl ++
   "Be kind." ++ Js.nl ++
   "Recent context:" ++ Js.nl ++
   "User: first" ++ Js.nl ++
   "Bot: second" ++ Js.nl ++
   "Current question: hi there" ++ Js.nl ++
   "<|assistant|>")%string.

(** The model answers after forty seconds. *)
Definition slow : World := withReplicateRun quick (Fulfils 40000 (Text "Hello there")).

(** The model never answers. *)
Definition silent : World := withReplicateRun quick Never.


(** ** Further observations and sample requests *)

Definition isErrorLog (e : Event) : bool :=
  match e with ConsoleError _ => true | _ => false end.

(** The two writes of lines 156-170. *)
Definition isPersistence (e : Event) : bool :=
  isHistoryAppend e || isSystemTurn e.

(** The same world with other outcomes of the two writes of lines 156-170. *)
Definition withWrites (w : World) (append update : Promise unit) : World :=
  {| url := url w; chatId := chatId w; json := json w;
     currentUser := currentUser w; ratelimit := ratelimit w;
     findUnique := findUnique w; getInstance := getInstance w;
     messageCreate := messageCreate w;
     readLatestHistory := readLatestHistory w; vectorSearch := vectorSearch w;
     seedChatHistory := seedChatHistory w; replicateRun := replicateRun w;
     writeToHistory := append; companionUpdate := update |}.

(** The model answers with three spaces. *)
Definition blank : World := withReplicateRun quick (Fulfils 900 (Text "   ")).

(** The history append fails after the reply was generated. *)
Definition appendDown : World := withWrites quick (Rejects 3) (Fulfils 4 tt).

(** The deadline timer is where the clock says it is: pending and not yet
    due, or fired with the signal aborted. *)
Definition onSchedule (c : Clock) : Prop :=
  (timer c = Pending 30000 /\ (now c < 30000)%N /\ aborted c = false) \/
  (timer c = Fired /\ (30000 <= now c)%N /\ aborted c = true).

(** ** The companion route [src/app/api/companion/[companionId]/route.ts]

    [PATCH] and [DELETE] make no use of time: a computation is a function of
    the calls made so far, and a promise is awaited for what it settles to. *)

Module CompanionRoute.

(** The value of [req.json()] once destructured (line 13): each property is
    missing, or present and rendered as a string.  A body that is not an
    object has every property missing. *)
Record Body : Type := mkBody {
  src : option string;
  name : option string;
  description : option string;
  instructions : option string;
  seed : option string;
  categoryId : option string
}.

(** The [data] of the update (lines 41-50). *)
Record Data : Type := mkData {
  d_categoryId : string;
  d_userId : string;
  d_userName : string;
  d_src : string;
  d_name : string;
  d_description : string;
  d_instructions : string;
  d_seed : string
}.

(** A companion row as the database returns it, serialised. *)
Definition Row : Type := string.

Inductive Call : Type :=
| ConsoleLog (name src : option string)
| Update (whereId whereUserId : string) (data : Data)
| Delete (whereUserId : string) (whereId : option string)
| LogError (tag : string).

Inductive Reply : Type :=
| Plain (body : string) (status : nat)      (* new NextResponse(body, { status }) *)
| Json (row : Row).                         (* NextResponse.json(row) *)

Definition statusOf (r : Reply) : nat :=
  match r with Plain _ st => st | Json _ => 200 end.

Definition R (A : Type) : Type := list Call -> list Call * Outcome A.

Definition ret {A} (a : A) : R A := fun tr => (tr, Value a).

Definition throw {A} : R A := fun tr => (tr, Thrown).

Definition bind {A B} (m : R A) (k : A -> R B) : R B :=
  fun tr =>
    match m tr with
    | (tr', Value a) => k a tr'
    | (tr', Thrown) => (tr', Thrown)
    | (tr', Stuck) => (tr', Stuck)
    end.

Definition tryCatch {A} (body handler : R A) : R A :=
  fun tr =>
    match body tr with
    | (tr', Thrown) => handler tr'
    | r => r
    end.

Definition emit (c : Call) : R unit := fun tr => (tr ++ [c], Value tt).

Definition await {A} (p : Promise A) : R A :=
  fun tr =>
    (tr, match p with
         | Fulfils _ v => Value v
         | Rejects _ => Thrown
         | Never => Stuck
         end).

Definition call {A} (c : Call) (p : Promise A) : R A :=
  bind (emit c) (fun _ => await p).

(** [!x] for a property of the body or of the route parameters. *)
Definition truthy (o : option string) : option string :=
  match o with
  | Some (String c s) => Some (String c s)
  | _ => None
  end.

(** What the collaborators of one [PATCH] request answer. *)
Record PatchWorld : Type := mkPatchWorld {
  companionId : option string;             (* params.companionId *)
  json : Promise (option Body);            (* req.json(); [None] is the JSON null *)
  currentUser : Promise (option User);
  update : Promise Row
}.

(** [!user || !user.id || !user.firstName] negated: the id and the first
    name the request goes on with. *)
Definition caller (u : option User) : option (string * string) :=
  match u with
  | None => None
  | Some usr =>
      if Js.falsy (uid usr) then None
      else match truthy (firstName usr) with
           | Some fn => Some (uid usr, fn)
           | None => None
           end
  end.

(** Lines 25-32 negated: the six properties, when none is missing or empty. *)
Definition fields (b : Body) : option (string * string * string * string * string * string) :=
  match truthy (src b), truthy (name b), truthy (description b),
        truthy (instructions b), truthy (seed b), truthy (categoryId b) with
  | Some s, Some n, Some d, Some i, Some sd, Some c => Some (s, n, d, i, sd, c)
  | _, _, _, _, _, _ => None
  end.

(** Lines 6-58. *)
Definition PATCH (w : PatchWorld) : R Reply :=
  tryCatch
    (bind (await (json w)) (fun body =>
     bind (await (currentUser w)) (fun user =>
     match body with
     | None => throw                      (* destructuring null *)
     | Some b =>
         bind (emit (ConsoleLog (name b) (src b))) (fun _ =>
         match truthy (companionId w) with
         | None => ret (Plain "Companion ID is Required." 400)
         | Some cid =>
             match caller user with
             | None => ret (Plain "Unauthorized" 401)
             | Some (userId, userFirstName) =>
                 match fields b with
                 | None => ret (Plain "Missing Required Field." 400)
                 | Some (s, n, d, i, sd, c) =>
                     bind (call (Update cid userId
                                   {| d_categoryId := c; d_userId := userId;
                                      d_userName := userFirstName; d_src := s;
                                      d_name := n; d_description := d;
                                      d_instructions := i; d_seed := sd |})
                                (update w))
                          (fun companion => ret (Json companion))
                 end
             end
         end)
     end)))
    (bind (emit (LogError "[COMPANION_PATCH]")) (fun _ =>
     ret (Plain "Internal Error" 500))).

(** What the collaborators of one [DELETE] request answer. *)
Record DeleteWorld : Type := mkDeleteWorld {
  auth : Promise (option string);          (* (await auth())?.userId *)
  params : Promise (option string);        (* (await params).companionId *)
  delete : Promise Row
}.

(** Lines 60-82. *)
Definition DELETE (w : DeleteWorld) : R Reply :=
  tryCatch
    (bind (await (auth w)) (fun sessionUserId =>
     match truthy sessionUserId with
     | None => ret (Plain "Unauthorized" 401)
     | Some userId =>
         bind (await (params w)) (fun cid =>
         bind (call (Delete userId cid) (delete w)) (fun companion =>
         ret (Json companion)))
     end))
    (bind (emit (LogError "[COMPANION_DELETE]")) (fun _ =>
     ret (Plain "Internal Error" 500))).

Definition patch (w : PatchWorld) : list Call * Outcome Reply := PATCH w [].
Definition del (w : DeleteWorld) : list Call * Outcome Reply := DELETE w [].

Definition isUpdate (c : Call) : bool :=
  match c with Update _ _ _ => true | _ => false end.
Definition isDelete (c : Call) : bool :=
  match c with Delete _ _ => true | _ => false end.
Definition isLog (c : Call) : bool :=
  match c with ConsoleLog _ _ => true | _ => false end.

(** Sample requests. *)
Definition fullBody : Body :=
  {| src := Some "https://img/bot.png"; name := Some "Bot";
     description := Some "A kind bot"; instructions := Some "Be kind.";
     seed := Some "Human: hi"; categoryId := Some "cat1" |}.

Definition goodPatch : PatchWorld :=
  {| companionId := Some "c1"; json := Fulfils 1 (Some fullBody);
     currentUser := Fulfils 2 (Some ann); update := Fulfils 3 "row" |}.

Definition strangerNoId : PatchWorld :=
  {| companionId := None; json := Fulfils 1 (Some fullBody);
     currentUser := Fulfils 2 None; update := Fulfils 3 "row" |}.

Definition nullBody : PatchWorld :=
  {| companionId := Some "c1"; json := Fulfils 1 None;
     currentUser := Fulfils 2 (Some ann); update := Fulfils 3 "row" |}.

Definition goodDelete : DeleteWorld :=
  {| auth := Fulfils 1 (Some "u1"); params := Fulfils 0 (Some "c1");
     delete := Fulfils 3 "row" |}.

Definition signedOutDelete : DeleteWorld :=
  {| auth := Fulfils 1 None; params := Never; delete := Never |}.

End CompanionRoute.

(** ** The emoji filter of the chat view ([transformTextToEmoji])

    Text is UTF-8 here: an emoji is the string of its bytes.  The two regular
    expressions of the function only look for ASCII characters (the letters
    and the space of the reaction words, the asterisk, the line terminators)
    and copy or drop everything else, so they read the same on bytes as on
    UTF-16 code units. *)

Module ChatMessages.

Definition reactionToEmoji : list (string * string) :=
  [("smirks", "😏");
   ("smiles", "😊");
   ("laughs", "😄");
   ("grins", "😁");
   ("frowns", "☹");
   ("cries", "😢");
   ("winks", "😉");
   ("sighs", "😮‍💨");
   ("rolls eyes", "🙄");
   ("shrugs", "🤷");
   ("nods", "🙂");
   ("gasps", "😮");
   ("yawns", "🥱");
   ("blushes", "😊");
   ("adjusts glasses", "😎");
   ("leaning in", "🤔");
   ("excitedly", "🤓")].

Definition STAR : ascii := "*"%char.

Fixpoint drop (n : nat) (s : string) : string :=
  match n, s with
  | S n', String _ s' => drop n' s'
  | _, _ => s
  end.

Definition startsWithStar (s : string) : bool :=
  match s with String c _ => Ascii.eqb c STAR | EmptyString => false end.

(** The alternation [(smirks|smiles|...)] under the flag [i], tried at the
    head of [s]: the first reaction of the table, in its order, that [s]
    starts with in any letter case, and its emoji. *)
Definition reactionAt (s : string) : option (string * string) :=
  find (fun kv => String.prefix (fst kv) (Js.toLowerCase s)) reactionToEmoji.

(** [inputText.replace(reactionPattern, ...)] with the pattern
    [\*?(smirks|...)\*?] and the flags [gi]: left to right, at each position
    an optional asterisk, a reaction and an optional asterisk are replaced by
    the emoji of the reaction; any other character is copied.  [skip] counts
    the characters of the current match still to pass over. *)
Fixpoint replaceReactions (skip : nat) (s : string) : string :=
  match s with
  | EmptyString => EmptyString
  | String c s' =>
      match skip with
      | S n => replaceReactions n s'
      | O =>
          let lead := if Ascii.eqb c STAR then 1 else 0 in
          let body := if Ascii.eqb c STAR then s' else s in
          match reactionAt body with
          | Some (k, emoji) =>
              let trail :=
                if startsWithStar (drop (String.length k) body) then 1 else 0 in
              (emoji ++ replaceReactions (lead + String.length k + trail - 1) s')%string
          | None => String c (replaceReactions 0 s')
          end
      end
  end.

(** A line terminator at the head of [s], which [.] does not match: LF, CR,
    or U+2028 or U+2029 in UTF-8. *)
Definition lineBreakAt (s : string) : bool :=
  match s with
  | String c s' =>
      let n := nat_of_ascii c in
      if (n =? 10) || (n =? 13) then true
      else if n =? 226 then
        match s' with
        | String d (String e _) =>
            (nat_of_ascii d =? 128) && ((nat_of_ascii e =? 168) || (nat_of_ascii e =? 169))
        | _ => false
        end
      else false
  | EmptyString => false
  end.

(** What follows the next asterisk of [s], when no line terminator comes
    before it: where [.*?\*] ends when tried at the head of [s]. *)
Fixpoint closing (s : string) : option string :=
  match s with
  | EmptyString => None
  | String c s' =>
      if Ascii.eqb c STAR then Some s'
      else if lineBreakAt s then None
      else closing s'
  end.

(** [.replace(/\*.*?\*/g, "")]: left to right, an asterisk that is closed by
    another one on its line is dropped with everything up to the closing
    one; [inside] says that such a span is being dropped. *)
Fixpoint removeStarred (inside : bool) (s : string) : string :=
  match s with
  | EmptyString => EmptyString
  | String c s' =>
      if inside then
        if Ascii.eqb c STAR then removeStarred false s' else removeStarred true s'
      else if Ascii.eqb c STAR then
        match closing s' with
        | Some _ => removeStarred true s'
        | None => String c (removeStarred false s')
        end
      else String c (removeStarred false s')
  end.

(** Lines 14-48; [None] is [undefined]. *)
Definition transformTextToEmoji (inputText : option string) : string :=
  match inputText with
  | None => EmptyString
  | Some EmptyString => EmptyString
  | Some t => removeStarred false (replaceReactions 0 t)
  end.

(** [k] occurs in [s]. *)
Fixpoint occursIn (k s : string) : bool :=
  String.prefix k s ||
  match s with
  | EmptyString => false
  | String _ s' => occursIn k s'
  end.

(** No asterisk of [s] is closed by a later one on its line. *)
Fixpoint unclosed (s : string) : Prop :=
  match s with
  | EmptyString => True
  | String c s' => (Ascii.eqb c STAR = true -> closing s' = None) /\ unclosed s'
  end.

End ChatMessages.

(** ** Auxiliary notions of the proofs *)

Definition overlapAt (A B : list string) (k : string) : nat :=
  Nat.min (count_occ string_dec A k) (count_occ string_dec B k).

Definition overlapOf (mB : WordMap.t) (kv : string * nat) : nat :=
  if WordMap.has mB (fst kv)
  then Nat.min (snd kv) (Js.orZero (WordMap.get mB (fst kv)))
  else 0.

(** No separator occurs in the string. *)
Fixpoint free (sep : ascii) (s : string) : Prop :=
  match s with
  | EmptyString => True
  | String c s' => Ascii.eqb c sep = false /\ free sep s'
  end.

Definition catLine : string := ("the cat" ++ Js.nl ++ "sat")%string.

(** ** Symbolic execution of the handler *)

(** Read a stage hypothesis back into the behaviour of the promises it
    speaks of. *)
Ltac reach H :=
  unfold reachesGeneration, admission, composition in H;
  repeat match type of H with
  | context [fulfilled ?p] =>
      destruct p eqn:?; cbn [fulfilled] in H; cbv iota in H; try discriminate H
  | context [match identified ?u with _ => _ end] =>
      destruct (identified u) eqn:?; try discriminate H
  | context [match ?x with _ => _ end] =>
      is_var x; destruct x; cbv iota in H; try discriminate H
  end.

(** Fields of a world given as a record. *)
Ltac world_fields :=
  cbn [url chatId json currentUser ratelimit findUnique getInstance
       messageCreate readLatestHistory vectorSearch seedChatHistory
       replicateRun writeToHistory companionUpdate].

(** Run the handler as far as the known behaviour of the world goes; the
    world, the clock, the string functions and the scorer stay folded. *)
Ltac exec_step :=
  lazy -[tick forever identified finalResponseOf generationPrompt
         messageHistory analyzeMessageSimilarity Js.trim Js.nl
         Nat.ltb Nat.eqb List.length String.length String.append
         uid firstName id name instructions seed messages
         timer now aborted
         N.add N.max N.min N.leb CONFIG.TIMEOUT_MS
         CONFIG.MODELS_default CONFIG.MAX_LENGTH
         url chatId json currentUser ratelimit findUnique getInstance
         messageCreate readLatestHistory vectorSearch seedChatHistory
         replicateRun writeToHistory companionUpdate].

Ltac exec :=
  repeat first
    [ progress exec_step
    | progress world_fields
    | progress cbn [Nat.eqb List.length timer now aborted]
    | match goal with
      | E : ?p = _ |- context [match ?p with _ => _ end] => rewrite E
      end ].

(** Branch on [p] where the run still depends on it. *)
Ltac branch p :=
  try match goal with
      | |- context [match p with _ => _ end] => destruct p eqn:?; exec
      end.

Ltac branch_value :=
  try match goal with
      | |- context [match ?x with _ => _ end] => is_var x; destruct x; exec
      end.

(** Run the handler of [w] along every behaviour of the promises still
    unknown, in the order the handler awaits them. *)
Ltac explore w :=
  exec;
  branch (json w); branch (currentUser w);
  try match goal with
      | |- context [match identified ?u with _ => _ end] =>
          destruct (identified u) eqn:?; exec
      end;
  branch (ratelimit w); branch (findUnique w); branch (getInstance w);
  branch_value; branch_value;
  branch (readLatestHistory w); branch (vectorSearch w);
  try match goal with
      | |- context [List.length ?l =? 0] => is_var l; destruct l; exec
      end;
  branch (seedChatHistory w); branch (messageCreate w); branch (replicateRun w);
  try match goal with
      | |- context [if 1 <? ?n then _ else _] => destruct (1 <? n) eqn:?; exec
      end;
  branch (writeToHistory w); branch (companionUpdate w);
  repeat match goal with
         | |- context [match ?x with _ => _ end] => is_var x; destruct x; exec
         end.

Ltac stages :=
  unfold reachesGeneration, admission, composition;
  repeat match goal with
         | E : ?p = _ |- context [fulfilled ?p] => rewrite E
         | E : ?p = _ |- context [match ?p with _ => _ end] => rewrite E
         | |- _ => progress cbn [fulfilled]
         | |- _ => progress cbv iota
         end.

(** Explore the single run of [w] the goal speaks of. *)
Ltac on_run w :=
  unfold made, countCalls, callsOf, responseOf, timerAfter, elapsed, abortedAfter;
  let x := fresh "x" in
  let E := fresh "E" in
  remember (run w) as x eqn:E; revert x E;
  explore w; intros x ->; cbn [fst snd clock trace timer now aborted].

(** * Properties of the scorer *)

Section WordMapFacts.

Lemma get_set_same (m : WordMap.t) (k : string) (v : nat) :
  WordMap.get (WordMap.set m k v) k = Some v.
Proof.
  induction m as [|[k' v'] m IH]; simpl.
  - now rewrite String.eqb_refl.
  - destruct (String.eqb k' k) eqn:E; simpl; rewrite E; auto.
Qed.

Lemma get_set_other (m : WordMap.t) (k k' : string) (v : nat) :
  k <> k' -> WordMap.get (WordMap.set m k v) k' = WordMap.get m k'.
Proof.
  intros Hne. induction m as [|[k0 v0] m IH]; simpl.
  - apply String.eqb_neq in Hne. now rewrite Hne.
  - destruct (String.eqb k0 k) eqn:E; simpl.
    + apply String.eqb_eq in E. subst k0.
      apply String.eqb_neq in Hne. now rewrite Hne.
    + destruct (String.eqb k0 k'); auto.
Qed.

Lemma in_keys_get (m : WordMap.t) (k : string) :
  In k (WordMap.keys m) <-> WordMap.get m k <> None.
Proof.
  induction m as [|[k' v'] m IH]; simpl.
  - split; [tauto | congruence].
  - destruct (String.eqb k' k) eqn:E.
    + apply String.eqb_eq in E. split; [congruence | auto].
    + apply String.eqb_neq in E. rewrite <- IH. split; [intros [?|?]; tauto | auto].
Qed.

Lemma keys_set (m : WordMap.t) (k : string) (v : nat) :
  WordMap.keys (WordMap.set m k v) =
  if WordMap.has m k then WordMap.keys m else WordMap.keys m ++ [k].
Proof.
  unfold WordMap.has.
  induction m as [|[k' v'] m IH]; simpl; auto.
  destruct (String.eqb k' k) eqn:E; simpl; auto.
  rewrite IH. now destruct (WordMap.get m k).
Qed.

Lemma get_of_nodup_keys (m : WordMap.t) (k : string) (v : nat) :
  NoDup (WordMap.keys m) -> In (k, v) m -> WordMap.get m k = Some v.
Proof.
  induction m as [|[k' v'] m IH]; simpl; [tauto|].
  intros Hnd [Heq | Hin].
  - inversion Heq; subst. now rewrite String.eqb_refl.
  - inversion Hnd as [|? ? Hnotin Hnd']; subst.
    destruct (String.eqb k' k) eqn:E; auto.
    apply String.eqb_eq in E. subst k'.
    exfalso. apply Hnotin. change k with (fst (k, v)). now apply in_map.
Qed.

Lemma createWordMap_snoc (ws : list string) (w : string) :
  createWordMap (ws ++ [w]) =
  WordMap.set (createWordMap ws) w (Js.orZero (WordMap.get (createWordMap ws) w) + 1).
Proof. unfold createWordMap. now rewrite fold_left_app. Qed.

(** The map built from a word list holds, for every word, the number of
    times it occurs. *)
Lemma get_createWordMap (ws : list string) (k : string) :
  WordMap.get (createWordMap ws) k =
  if count_occ string_dec ws k =? 0 then None
  else Some (count_occ string_dec ws k).
Proof.
  induction ws as [|w ws IH] using rev_ind; [reflexivity|].
  rewrite createWordMap_snoc, count_occ_app. simpl.
  destruct (string_dec w k) as [->|Hne].
  - rewrite get_set_same, IH.
    destruct (count_occ string_dec ws k) as [|n] eqn:E; simpl; [reflexivity|].
    replace (n + 1 =? 0) with false by (symmetry; apply Nat.eqb_neq; lia).
    f_equal; lia.
  - rewrite get_set_other by assumption. rewrite IH, Nat.add_0_r. reflexivity.
Qed.

Lemma has_createWordMap (ws : list string) (k : string) :
  WordMap.has (createWordMap ws) k = negb (count_occ string_dec ws k =? 0).
Proof.
  unfold WordMap.has. rewrite get_createWordMap.
  now destruct (count_occ string_dec ws k =? 0).
Qed.

Lemma orZero_get_createWordMap (ws : list string) (k : string) :
  Js.orZero (WordMap.get (createWordMap ws) k) = count_occ string_dec ws k.
Proof.
  rewrite get_createWordMap.
  destruct (count_occ string_dec ws k =? 0) eqn:E; simpl; auto.
  apply Nat.eqb_eq in E. auto.
Qed.

Lemma nodup_keys_createWordMap (ws : list string) :
  NoDup (WordMap.keys (createWordMap ws)).
Proof.
  induction ws as [|w ws IH] using rev_ind; [constructor|].
  rewrite createWordMap_snoc, keys_set.
  destruct (WordMap.has (createWordMap ws) w) eqn:E; auto.
  apply NoDup_app; auto.
  - repeat constructor. simpl. tauto.
  - intros x Hx [Heq|[]]. subst x. apply in_keys_get in Hx.
    unfold WordMap.has in E. destruct (WordMap.get (createWordMap ws) w); congruence.
Qed.

Lemma in_keys_createWordMap (ws : list string) (k : string) :
  In k (WordMap.keys (createWordMap ws)) <-> In k ws.
Proof.
  rewrite in_keys_get, get_createWordMap, (count_occ_In string_dec).
  destruct (count_occ string_dec ws k =? 0) eqn:E.
  - apply Nat.eqb_eq in E. split; [congruence | lia].
  - apply Nat.eqb_neq in E. split; [lia | congruence].
Qed.

End WordMapFacts.

Section Sums.

Lemma list_sum_perm (l l' : list nat) :
  Permutation l l' -> list_sum l = list_sum l'.
Proof. induction 1; simpl; lia. Qed.

Lemma list_sum_filter_nonzero {A} (f : A -> nat) (l : list A) :
  list_sum (map f l) = list_sum (map f (filter (fun x => negb (f x =? 0)) l)).
Proof.
  induction l as [|x l IH]; simpl; auto.
  destruct (f x =? 0) eqn:E; simpl.
  - apply Nat.eqb_eq in E. lia.
  - lia.
Qed.

(** A sum over a duplicate-free list only depends on the elements where the
    summand is not zero. *)
Lemma list_sum_support {A} (f : A -> nat) (l l' : list A) :
  NoDup l -> NoDup l' ->
  (forall x, f x <> 0 -> In x l) ->
  (forall x, f x <> 0 -> In x l') ->
  list_sum (map f l) = list_sum (map f l').
Proof.
  intros Hl Hl' Hin Hin'.
  rewrite (list_sum_filter_nonzero f l), (list_sum_filter_nonzero f l').
  apply list_sum_perm, Permutation_map, NoDup_Permutation.
  - now apply NoDup_filter.
  - now apply NoDup_filter.
  - intros x. rewrite !filter_In, negb_true_iff, Nat.eqb_neq.
    split; intros [_ Hx]; split; auto.
Qed.

End Sums.

Section ScorerFacts.

Lemma overlapAt_nonzero (A B : list string) (k : string) :
  overlapAt A B k <> 0 -> In k A /\ In k B.
Proof.
  unfold overlapAt. rewrite !(count_occ_In string_dec). lia.
Qed.

Lemma commonWords_fold (mA mB : WordMap.t) (a : nat) :
  fold_left
    (fun acc kv =>
       if WordMap.has mB (fst kv)
       then acc + Nat.min (snd kv) (Js.orZero (WordMap.get mB (fst kv)))
       else acc) mA a =
  a + list_sum (map (overlapOf mB) mA).
Proof.
  revert a. induction mA as [|kv m IH]; intros a; simpl; [lia|].
  rewrite IH. unfold overlapOf. destruct (WordMap.has mB (fst kv)); lia.
Qed.

Lemma commonWords_sum (mA mB : WordMap.t) :
  commonWords mA mB = list_sum (map (overlapOf mB) mA).
Proof.
  unfold commonWords, WordMap.forEach. now rewrite commonWords_fold.
Qed.

(** [commonWords] on two built maps is the sum, over the distinct words of
    the first list, of the smaller of the two counts. *)
Lemma commonWords_counts (A B : list string) :
  commonWords (createWordMap A) (createWordMap B) =
  list_sum (map (overlapAt A B) (WordMap.keys (createWordMap A))).
Proof.
  rewrite commonWords_sum. unfold WordMap.keys. rewrite map_map.
  f_equal. apply map_ext_in. intros [k v] Hin. unfold overlapOf. simpl.
  pose proof (get_of_nodup_keys _ _ _ (nodup_keys_createWordMap A) Hin) as Hget.
  rewrite get_createWordMap in Hget.
  rewrite has_createWordMap, orZero_get_createWordMap. unfold overlapAt.
  destruct (count_occ string_dec A k =? 0); [discriminate|].
  inversion Hget; subst.
  destruct (count_occ string_dec B k =? 0) eqn:E; simpl; auto.
  apply Nat.eqb_eq in E. lia.
Qed.

Lemma commonWords_comm (A B : list string) :
  commonWords (createWordMap A) (createWordMap B) =
  commonWords (createWordMap B) (createWordMap A).
Proof.
  rewrite !commonWords_counts.
  rewrite (map_ext (overlapAt B A) (overlapAt A B))
    by (intros k; unfold overlapAt; apply Nat.min_comm).
  apply list_sum_support; try apply nodup_keys_createWordMap;
    intros k Hk; apply in_keys_createWordMap;
    apply overlapAt_nonzero in Hk; tauto.
Qed.

Lemma commonWords_reference (A B : list string) :
  commonWords (createWordMap A) (createWordMap B) = Reference.commonWords A B.
Proof.
  rewrite commonWords_counts. unfold Reference.commonWords, Reference.shared.
  change (fun t => Nat.min (Reference.countOf A t) (Reference.countOf B t))
    with (overlapAt A B).
  apply list_sum_support.
  - apply nodup_keys_createWordMap.
  - apply NoDup_nodup.
  - intros k Hk. apply in_keys_createWordMap. apply overlapAt_nonzero in Hk. tauto.
  - intros k Hk. apply overlapAt_nonzero in Hk. destruct Hk as [HA HB].
    apply nodup_In, filter_In. split; auto.
    unfold Reference.member. apply existsb_exists. exists k. split; auto.
    apply String.eqb_refl.
Qed.

(** [c / m > 0.6], in integers. *)
Lemma ratioAbove_spec (c m : nat) :
  ratioAbove c m = negb (m =? 0) && (3 * m <? 5 * c).
Proof.
  unfold ratioAbove, Qle_bool, Qdiv, Qinv, Qmult, inject_Z.
  destruct m as [|m]; simpl Z.of_nat.
  - simpl. rewrite Z.mul_0_r. reflexivity.
  - cbn [Qnum Qden negb andb Nat.eqb].
    rewrite <- Z.ltb_antisym.
    destruct (3 * S m <? 5 * c) eqn:E.
    + apply Nat.ltb_lt in E. apply Z.ltb_lt. lia.
    + apply Nat.ltb_ge in E. apply Z.ltb_ge. lia.
Qed.

Lemma ratioAbove_zero (m : nat) : ratioAbove 0 m = false.
Proof.
  rewrite ratioAbove_spec.
  replace (3 * m <? 5 * 0) with false by (symmetry; apply Nat.ltb_ge; lia).
  apply andb_false_r.
Qed.

End ScorerFacts.

Section Tokens.

Lemma append_nil_r (s : string) : (s ++ "")%string = s.
Proof. induction s; simpl; congruence. Qed.

Lemma append_snoc (cur : string) (c : ascii) (s : string) :
  ((cur ++ String c "") ++ s)%string = (cur ++ String c s)%string.
Proof. induction cur; simpl; congruence. Qed.

Lemma free_snoc (sep c : ascii) (cur : string) :
  free sep cur -> Ascii.eqb c sep = false -> free sep (cur ++ String c "").
Proof. induction cur; simpl; intuition. Qed.

Lemma split_free (sep : ascii) (cur : string) :
  free sep cur -> Js.split sep cur = [cur].
Proof.
  induction cur as [|c cur IH]; simpl; auto.
  intros [Hc Hfree]. rewrite Hc, (IH Hfree). reflexivity.
Qed.

Lemma split_at_sep (sep : ascii) (cur s : string) :
  free sep cur ->
  Js.split sep (cur ++ String sep s) = cur :: Js.split sep s.
Proof.
  induction cur as [|c cur IH]; simpl.
  - now rewrite Ascii.eqb_refl.
  - intros [Hc Hfree]. rewrite Hc, (IH Hfree). reflexivity.
Qed.

Lemma filter_nonEmpty_one (cur : string) :
  filter Js.nonEmpty [cur] = Reference.flush cur.
Proof. now destruct cur. Qed.

Lemma split_tokenize (s cur : string) :
  free Js.SPACE cur ->
  filter Js.nonEmpty (Js.split Js.SPACE (cur ++ s)) =
  Reference.tokenize Reference.spaceOnly cur s.
Proof.
  revert cur. induction s as [|c s IH]; intros cur Hfree.
  - rewrite append_nil_r, split_free by assumption. apply filter_nonEmpty_one.
  - simpl Reference.tokenize. unfold Reference.spaceOnly at 1.
    destruct (Ascii.eqb c Js.SPACE) eqn:E.
    + apply Ascii.eqb_eq in E. subst c.
      rewrite split_at_sep by assumption.
      change (cur :: Js.split Js.SPACE s) with ([cur] ++ Js.split Js.SPACE s).
      rewrite filter_app, filter_nonEmpty_one. f_equal.
      apply (IH EmptyString). exact I.
    + rewrite <- append_snoc. apply IH. now apply free_snoc.
Qed.

(** The words of [split(" ")] followed by the filter are the tokens of a
    tokenizer whose only separator is the space. *)
Lemma words_tokens (s : string) : words s = Reference.tokens Reference.spaceOnly s.
Proof. unfold words, Reference.tokens. apply (split_tokenize _ EmptyString). exact I. Qed.

Lemma words_empty : words "" = [].
Proof. reflexivity. Qed.

End Tokens.

Section ScorerMore.

Lemma commonWords_nil_l (mB : WordMap.t) : commonWords (createWordMap []) mB = 0.
Proof. reflexivity. Qed.

(** The early return of line 28 agrees with the general formula. *)
Lemma analyzeMessageSimilarity_formula (msg prompt : string) :
  analyzeMessageSimilarity msg prompt =
  ratioAbove (commonWords (createWordMap (words msg)) (createWordMap (words prompt)))
             (Nat.max (List.length (words msg)) (List.length (words prompt))).
Proof.
  unfold analyzeMessageSimilarity. destruct msg as [|c msg]; simpl Js.falsy; cbv iota.
  - rewrite words_empty, commonWords_nil_l. symmetry. apply ratioAbove_zero.
  - reflexivity.
Qed.

Lemma list_sum_map_add {A} (f g : A -> nat) (l : list A) :
  list_sum (map (fun x => f x + g x) l) = list_sum (map f l) + list_sum (map g l).
Proof. induction l; simpl; lia. Qed.

Lemma list_sum_indicator (a : string) (l : list string) :
  list_sum (map (fun k => if string_dec a k then 1 else 0) l) = count_occ string_dec l a.
Proof.
  induction l as [|x l IH]; simpl; auto.
  rewrite IH. destruct (string_dec a x), (string_dec x a); subst; congruence || lia.
Qed.

(** Counting every distinct word as often as it occurs counts every word. *)
Lemma list_sum_counts (A l : list string) :
  NoDup l -> (forall x, In x A -> In x l) ->
  list_sum (map (count_occ string_dec A) l) = List.length A.
Proof.
  intros Hnd. induction A as [|a A IH]; intros Hsub.
  - simpl. clear Hnd Hsub. induction l; simpl; auto.
  - rewrite (map_ext (count_occ string_dec (a :: A))
               (fun k => (if string_dec a k then 1 else 0) + count_occ string_dec A k)).
    + rewrite list_sum_map_add, list_sum_indicator, IH.
      * assert (count_occ string_dec l a = 1) as ->; [|reflexivity].
        pose proof (proj1 (NoDup_count_occ string_dec l) Hnd a).
        pose proof (proj1 (count_occ_In string_dec l a) (Hsub a (or_introl eq_refl))).
        lia.
      * intros x Hx. apply Hsub. now right.
    + intros k. simpl. destruct (string_dec a k); lia.
Qed.

Lemma commonWords_self (A : list string) :
  commonWords (createWordMap A) (createWordMap A) = List.length A.
Proof.
  rewrite commonWords_counts.
  rewrite (map_ext (overlapAt A A) (count_occ string_dec A))
    by (intros k; unfold overlapAt; apply Nat.min_id).
  apply list_sum_counts.
  - apply nodup_keys_createWordMap.
  - intros x. apply in_keys_createWordMap.
Qed.

Lemma commonWords_disjoint (A B : list string) :
  (forall t, In t A -> ~ In t B) ->
  commonWords (createWordMap A) (createWordMap B) = 0.
Proof.
  intros Hdisj. rewrite commonWords_counts.
  rewrite (map_ext_in _ (fun _ => 0)).
  - induction (WordMap.keys (createWordMap A)); simpl; auto.
  - intros k Hk. apply (proj1 (in_keys_createWordMap A k)) in Hk.
    unfold overlapAt.
    rewrite (proj1 (count_occ_not_In string_dec B k) (Hdisj k Hk)).
    apply Nat.min_0_r.
Qed.

End ScorerMore.

(** * The scorer against its specification *)

(** C5, as stated, fails: with a white-space tokenizer the two-line text
    "the cat\nsat" has the three tokens of "the cat sat" and is repetitive,
    while the code, which splits on the space only, reads "cat\nsat" as one
    word and finds one common word out of three. *)
Lemma scorer_newline_not_separator :
  analyzeMessageSimilarity catLine "the cat sat" = false /\
  Reference.isRepetitive Reference.whitespace catLine "the cat sat" = true.
Proof. split; vm_compute; reflexivity. Qed.

(** C5, amended: for all strings the scorer is the reference definition over
    the tokenizer whose only separator is the space character: lower-case,
    split on spaces discarding empty tokens, count the tokens of each string,
    add up the smaller count over the shared tokens, and answer whether that
    sum divided by the larger token count exceeds 0.6.  In particular an
    empty candidate is never repetitive, a string with at least one word is
    repetitive with itself, and strings without a common word are not. *)
Theorem scorer_is_reference_on_spaces (candidate reference : string) :
  analyzeMessageSimilarity candidate reference =
    Reference.isRepetitive Reference.spaceOnly candidate reference
  /\ analyzeMessageSimilarity "" reference = false
  /\ (words candidate <> [] -> analyzeMessageSimilarity candidate candidate = true)
  /\ ((forall t, In t (words candidate) -> ~ In t (words reference)) ->
      analyzeMessageSimilarity candidate reference = false).
Proof.
  split; [|split; [|split]].
  - destruct candidate as [|c candidate]; [reflexivity|].
    unfold analyzeMessageSimilarity, Reference.isRepetitive. cbv beta iota zeta.
    simpl Js.falsy. cbv iota.
    now rewrite commonWords_reference, !words_tokens.
  - reflexivity.
  - intros Hne. rewrite analyzeMessageSimilarity_formula, commonWords_self, Nat.max_id.
    rewrite ratioAbove_spec.
    destruct (words candidate) as [|x l]; [congruence|]. simpl List.length.
    apply andb_true_iff. split; [reflexivity | apply Nat.ltb_lt; lia].
  - intros Hdisj.
    rewrite analyzeMessageSimilarity_formula, commonWords_disjoint by assumption.
    apply ratioAbove_zero.
Qed.

Lemma scorer_is_reference_on_spaces_witness :
  analyzeMessageSimilarity "the cat sat" "a dog" =
    Reference.isRepetitive Reference.spaceOnly "the cat sat" "a dog"
  /\ analyzeMessageSimilarity "" "a dog" = false
  /\ analyzeMessageSimilarity "the cat sat" "the cat sat" = true
  /\ analyzeMessageSimilarity "the cat sat" "a dog" = false.
Proof.
  destruct (scorer_is_reference_on_spaces "the cat sat" "a dog") as (H1 & H2 & H3 & H4).
  split; [|split; [|split]].
  - exact H1.
  - exact H2.
  - apply H3. vm_compute. discriminate.
  - apply H4. vm_compute. intros t H [Hd | [Hd | []]];
      subst t; repeat (destruct H as [H | H]; [discriminate H|]); exact H.
Defined.

(** C10: the scorer is symmetric in its two arguments, the empty string and
    strings of spaces included. *)
Theorem analyzeMessageSimilarity_symmetric (a b : string) :
  analyzeMessageSimilarity a b = analyzeMessageSimilarity b a.
Proof.
  rewrite !analyzeMessageSimilarity_formula.
  now rewrite commonWords_comm, Nat.max_comm.
Qed.

(** * Properties of the handler *)

Section Clock.

(** Time passing never clears a timer. *)
Lemma timer_tick_not_cleared (t : N) (c : Clock) :
  timer c <> Cleared -> timer (tick t c) <> Cleared.
Proof.
  unfold tick. destruct (timer c); simpl; auto. intros _.
  destruct (_ <=? _)%N; simpl; discriminate.
Qed.

Lemma timer_forever_not_cleared (c : Clock) :
  timer c <> Cleared -> timer (forever c) <> Cleared.
Proof. unfold forever. destruct (timer c) eqn:E; simpl; congruence. Qed.

End Clock.

Ltac timers :=
  repeat first [ apply timer_tick_not_cleared | apply timer_forever_not_cleared ];
  try discriminate.

Section Stages.

(** X24: the generation call is made exactly by the requests that pass the
    gates, the memory operations and the write of the user turn. *)
Lemma generation_called_iff (w : World) :
  made isGeneration w = match reachesGeneration w with Some _ => true | None => false end.
Proof. explore w; stages; reflexivity. Qed.

(** X25: what the generation call is given, for every request that makes
    it: the template of lines 138-144 over the companion, the prompt and the
    transcript of the recent turns.  The archival documents are no part of
    it. *)
Lemma generation_call (w : World) (prompt : string) (usr : User) (c : Companion) :
  reachesGeneration w = Some (prompt, usr, c) ->
  filter isGeneration (callsOf w) =
  [ReplicateRun CONFIG.MODELS_default
     (generationPrompt c prompt (messageHistory c (messages c)))
     CONFIG.MAX_LENGTH].
Proof.
  intros Hreach.
  reach Hreach; inversion Hreach; subst; explore w; reflexivity.
Qed.

(** The transcript lists the recent turns oldest first. *)
Lemma messageHistory_oldest_first (c : Companion) (recent : list Message) :
  messageHistory c recent =
  Js.join Js.nl (map (fun msg => roleLabel c msg ++ ": " ++ content msg)%string (rev recent)).
Proof. unfold messageHistory. now rewrite map_rev. Qed.

(** X26: neither the calls made nor the response depend on what the
    archival search finds. *)
Lemma archive_is_ignored (w : World) (t : N) (docs docs' : option (list Document)) :
  callsOf (withVectorSearch w (Fulfils t docs)) =
    callsOf (withVectorSearch w (Fulfils t docs')) /\
  responseOf (withVectorSearch w (Fulfils t docs)) =
    responseOf (withVectorSearch w (Fulfils t docs')).
Proof. split; explore w; reflexivity. Qed.

(** X27: neither the calls made nor the response depend on how long the
    model takes to answer: the deadline changes nothing the caller
    observes. *)
Lemma generation_latency_is_ignored (w : World) (t t' : N) (out : ModelOutput) :
  callsOf (withReplicateRun w (Fulfils t out)) =
    callsOf (withReplicateRun w (Fulfils t' out)) /\
  responseOf (withReplicateRun w (Fulfils t out)) =
    responseOf (withReplicateRun w (Fulfils t' out)).
Proof. split; explore w; reflexivity. Qed.

(** X28: a model that never answers leaves the request without a response,
    whatever the timer does. *)
Lemma silent_generation_hangs (w : World) :
  reachesGeneration w <> None ->
  responseOf (withReplicateRun w Never) = Stuck.
Proof.
  intros Hreach. destruct (reachesGeneration w) as [a|] eqn:E; [clear Hreach | congruence].
  reach E; explore w; reflexivity.
Qed.

(** X29: the timer is cleared by the [catch] block and by nothing else: a
    request answered with the generic error has no pending timer, and a
    request answered otherwise never had its timer cleared. *)
Lemma timer_cleared_only_when_caught (w : World) (r : Response) :
  responseOf w = Value r ->
  (statusOf r = 500 -> forall t, timerAfter w <> Pending t) /\
  (statusOf r <> 500 -> timerAfter w <> Cleared).
Proof.
  on_run w; intros Hr; inversion Hr; subst; cbn [statusOf];
    (split; [intros Hst t | intros Hst]);
    try congruence; try discriminate Hst; timers.
  all: match goal with
       | |- context [match timer ?c with _ => _ end] => destruct (timer c); discriminate
       end.
Qed.

End Stages.

(** * The handler against its specification *)

(** The prompt of the sample request is the template on its data. *)
Example quickPrompt_is_template :
  quickPrompt = generationPrompt bot "hi there" (messageHistory bot (messages bot)).
Proof. reflexivity. Qed.

(** C1 (the code departs from the claim): the request [quick] succeeds, its
    archival search returns the snippet "Frodo lives in the Shire.", and the
    one prompt given to the generation call holds the persona, its
    instructions, the transcript oldest first and the question, but not the
    snippet. *)
Theorem prompt_omits_archival_snippets :
  responseOf quick = Value (StreamingTextResponse ["Hello there"]) /\
  vectorSearch quick = Fulfils 9 (Some [mkDocument "Frodo lives in the Shire."]) /\
  relevantHistory (Some shire) = "Frodo lives in the Shire." /\
  filter isGeneration (callsOf quick) =
    [ReplicateRun CONFIG.MODELS_default quickPrompt CONFIG.MAX_LENGTH] /\
  Js.includes "You are Bot." quickPrompt = true /\
  Js.includes "Be kind." quickPrompt = true /\
  Js.includes ("User: first" ++ Js.nl ++ "Bot: second") quickPrompt = true /\
  Js.includes "Current question: hi there" quickPrompt = true /\
  Js.includes "Frodo lives in the Shire." quickPrompt = false.
Proof. repeat split; vm_compute; reflexivity. Qed.

(** C2 (the code departs from the claim): on the 200 path and on the early
    401, 429 and 404 returns the handler returns with its timer still
    pending; only the [catch] path, here a failed write of the user turn,
    clears it. *)
Theorem timer_left_pending_outside_catch :
  (responseOf quick = Value (StreamingTextResponse ["Hello there"]) /\
   timerAfter quick = Pending 30000) /\
  (responseOf anonymous = Value (NextResponse "Unauthorized" 401) /\
   timerAfter anonymous = Pending 30000) /\
  (responseOf limited = Value (NextResponse "Rate limit exceeded" 429) /\
   timerAfter limited = Pending 30000) /\
  (responseOf unknownCompanion = Value (NextResponse "Companion not found" 404) /\
   timerAfter unknownCompanion = Pending 30000) /\
  (responseOf userTurnLost = Value (NextResponse "Internal Error" 500) /\
   timerAfter userTurnLost = Cleared).
Proof. repeat split; vm_compute; reflexivity. Qed.

(** C3, as stated, fails: when only the write of the user turn fails, the
    response is the generic error and not the generated text. *)
Lemma user_turn_failure_fails_request :
  messageCreate userTurnLost = Rejects 4 /\
  admission userTurnLost = Some ("hi there", ann, bot) /\
  composition userTurnLost = Some (["Human: hi"], Some shire) /\
  replicateRun userTurnLost = Fulfils 900 (Text rambling) /\
  responseOf userTurnLost = Value (NextResponse "Internal Error" 500).
Proof. repeat split; vm_compute; reflexivity. Qed.

(** C3, amended: the write of the user turn is started without waiting,
    before the memory reads and the seeding, and is awaited before the
    generation call; for every request in which it fails while the steps
    before the generation call succeed, the failure is logged, the generation
    call is never made and the response is the generic 500 error. *)
Theorem user_turn_write_awaited_before_generation (w : World) (prompt : string)
    (usr : User) (c : Companion) (rd : list string * option (list Document)) (t : N) :
  admission w = Some (prompt, usr, c) ->
  composition w = Some rd ->
  messageCreate w = Rejects t ->
  responseOf w = Value (NextResponse "Internal Error" 500) /\
  made isGeneration w = false /\
  filter (fun e => negb (isSeeding e)) (callsOf w) =
    let key := {| companionName := id c; userId := uid usr;
                  modelName := "meta/meta-llama-3-8b-instruct" |} in
    [RateLimit (url w ++ "-" ++ uid usr)%string;
     FindUnique (chatId w) (uid usr) 10;
     GetInstance;
     MessageCreate prompt user (uid usr) (id c);
     ReadLatestHistory key;
     VectorSearch (id c) (id c ++ ".txt")%string;
     ConsoleError "[CHAT_POST]"].
Proof.
  intros Hadm Hcomp Hmsg.
  reach Hadm; inversion Hadm; subst; reach Hcomp;
    on_run w; repeat split; reflexivity.
Qed.

Lemma user_turn_write_awaited_before_generation_witness :
  responseOf userTurnLost = Value (NextResponse "Internal Error" 500) /\
  made isGeneration userTurnLost = false.
Proof.
  destruct (user_turn_write_awaited_before_generation userTurnLost
              "hi there" ann bot (["Human: hi"], Some shire) 4
              eq_refl eq_refl eq_refl) as (H1 & H2 & _).
  split; [exact H1 | exact H2].
Defined.

(** C4 (the code departs from the claim): the abort signal of the controller
    is given to no call.  When the model answers after 40 seconds the timer
    fires at 30 seconds, the signal is aborted, and the request still waits
    and answers 200 with the generated text after more than 40 seconds; when
    the model never answers, the request never resolves. *)
Theorem deadline_does_not_abort_generation :
  (replicateRun slow = Fulfils 40000 (Text "Hello there") /\
   responseOf slow = Value (StreamingTextResponse ["Hello there"]) /\
   elapsed slow = 40023%N /\
   timerAfter slow = Fired /\
   abortedAfter slow = true) /\
  (replicateRun silent = Never /\
   responseOf silent = Stuck /\
   timerAfter silent = Fired /\
   abortedAfter silent = true).
Proof. repeat split; vm_compute; reflexivity. Qed.

(** C6, as stated, fails: the history read returns the empty sequence, the
    archival search awaited together with it fails, and no seeding is done. *)
Lemma seeding_skipped_when_search_fails :
  made isHistoryRead firstEverSearchDown = true /\
  readLatestHistory firstEverSearchDown = Fulfils 6 [] /\
  vectorSearch firstEverSearchDown = Rejects 9 /\
  countCalls isSeeding firstEverSearchDown = 0.
Proof. repeat split; vm_compute; reflexivity. Qed.

(** C6, amended: for every request, [seedChatHistory] is invoked, once and
    with the companion's seed and the delimiter "\n\n", if and only if the
    request passes the gates and [readLatestHistory] returned the empty
    sequence while the [vectorSearch] awaited together with it resolved too;
    every other request, one whose history is not empty among them, performs
    no seeding write. *)
Theorem seeding_iff_history_read_empty (w : World) :
  filter isSeeding (callsOf w) =
  match admission w, fulfilled (readLatestHistory w), fulfilled (vectorSearch w) with
  | Some (_, usr, c), Some [], Some _ =>
      [SeedChatHistory (seed c) (Js.nl ++ Js.nl)%string
         {| companionName := id c; userId := uid usr;
            modelName := "meta/meta-llama-3-8b-instruct" |}]
  | _, _, _ => []
  end.
Proof. explore w; stages; reflexivity. Qed.

(** A first request is seeded once, a later one is not. *)
Example seeding_first_request_only :
  filter isSeeding (callsOf firstEver) =
    [SeedChatHistory "Human: hi" (Js.nl ++ Js.nl)%string
       {| companionName := "c1"; userId := "u1";
          modelName := "meta/meta-llama-3-8b-instruct" |}] /\
  filter isSeeding (callsOf quick) = [].
Proof. split; vm_compute; reflexivity. Qed.



(** C8, as stated, fails: the rate limiter refuses the request while the
    companion lookup awaited together with it fails, and the response is the
    generic 500 error, not 429. *)
Lemma rate_limited_lookup_failure_is_500 :
  made isRateCheck limitedLookupDown = true /\
  ratelimit limitedLookupDown = Fulfils 5 false /\
  findUnique limitedLookupDown = Rejects 7 /\
  responseOf limitedLookupDown = Value (NextResponse "Internal Error" 500).
Proof. repeat split; vm_compute; reflexivity. Qed.

(** C8, amended: for every request whose rate-limit check returns
    success=false, the generation call is never made and there is no
    seeding, no history append, no user turn and no system turn written; the
    response is 429 when the companion lookup and the memory manager awaited
    together with the check resolve, the generic 500 error when one of them
    fails, and none while one of them stays pending. *)
Theorem rate_limited_never_generates (w : World) (t : N) :
  made isRateCheck w = true ->
  ratelimit w = Fulfils t false ->
  made isGeneration w = false /\
  made isSeeding w = false /\
  made isHistoryAppend w = false /\
  made isUserTurn w = false /\
  made isSystemTurn w = false /\
  responseOf w =
    match all2 (findUnique w) (getInstance w) with
    | Fulfils _ _ => Value (NextResponse "Rate limit exceeded" 429)
    | Rejects _ => Value (NextResponse "Internal Error" 500)
    | Never => Stuck
    end.
Proof.
  intros Hcheck Hrate. revert Hcheck.
  on_run w; intros Hcheck; try discriminate Hcheck; repeat split; reflexivity.
Qed.

Lemma rate_limited_never_generates_witness :
  made isGeneration limited = false /\
  responseOf limited = Value (NextResponse "Rate limit exceeded" 429).
Proof.
  destruct (rate_limited_never_generates limited 5 eq_refl eq_refl)
    as (H1 & _ & _ & _ & _ & H2).
  split; [exact H1 | exact H2].
Defined.

(** C9: the repetition signal is computed and changes nothing.  Two runs of
    the handler on the same request that differ only in the value the signal
    takes, however it is computed from the recent turns and the prompt (the
    scorer of the code, constantly true, constantly false), end in the same
    state and outcome: the same calls with the same arguments, the prompt of
    the generation call and the persisted writes among them, the same clock
    and the same response.  In particular every such run is the run of
    [POST]. *)
Theorem repetition_signal_unused (signal1 signal2 : list Message -> string -> bool)
    (w : World) (s : State) :
  POSTWith signal1 w s = POSTWith signal2 w s /\
  POSTWith (fun _ _ => true) w s = POST w s /\
  POSTWith (fun _ _ => false) w s = POST w s.
Proof. repeat split. Qed.

(** * Further properties of the scorer (route.ts, lines 19-44) *)

Section ScorerCoverage.

Lemma list_sum_map_le {A} (f g : A -> nat) (l : list A) :
  (forall x, f x <= g x) -> list_sum (map f l) <= list_sum (map g l).
Proof.
  intros Hle. induction l as [|x l IH]; simpl; [lia|].
  specialize (Hle x). lia.
Qed.

Lemma values_sum_createWordMap (ws : list string) :
  list_sum (map snd (createWordMap ws)) = List.length ws.
Proof.
  rewrite <- (list_sum_counts ws (WordMap.keys (createWordMap ws))).
  - unfold WordMap.keys. rewrite map_map. f_equal.
    apply map_ext_in. intros [k v] Hin. simpl.
    pose proof (get_of_nodup_keys _ _ _ (nodup_keys_createWordMap ws) Hin) as Hget.
    rewrite get_createWordMap in Hget.
    destruct (count_occ string_dec ws k =? 0); congruence.
  - apply nodup_keys_createWordMap.
  - intros x. apply in_keys_createWordMap.
Qed.

Lemma commonWords_le_l (A B : list string) :
  commonWords (createWordMap A) (createWordMap B) <= List.length A.
Proof.
  rewrite commonWords_counts.
  rewrite <- (list_sum_counts A (WordMap.keys (createWordMap A))).
  - apply list_sum_map_le. intros k. unfold overlapAt. apply Nat.le_min_l.
  - apply nodup_keys_createWordMap.
  - intros x. apply in_keys_createWordMap.
Qed.

Lemma commonWords_perm (A A' B B' : list string) :
  Permutation A A' -> Permutation B B' ->
  commonWords (createWordMap A) (createWordMap B) =
  commonWords (createWordMap A') (createWordMap B').
Proof.
  intros HA HB. rewrite !commonWords_counts.
  rewrite (map_ext (overlapAt A B) (overlapAt A' B')).
  - apply list_sum_support; try apply nodup_keys_createWordMap;
      intros k Hk; apply in_keys_createWordMap;
      apply overlapAt_nonzero in Hk; destruct Hk as [Hk _]; auto.
    apply (Permutation_in k (Permutation_sym HA)); exact Hk.
  - intros k. unfold overlapAt.
    now rewrite (proj1 (Permutation_count_occ string_dec A A') HA k),
                (proj1 (Permutation_count_occ string_dec B B') HB k).
Qed.

Lemma lowerChar_idem (c : ascii) : Js.lowerChar (Js.lowerChar c) = Js.lowerChar c.
Proof.
  destruct c as [[] [] [] [] [] [] [] []]; reflexivity.
Qed.

Lemma toLowerCase_idem (s : string) :
  Js.toLowerCase (Js.toLowerCase s) = Js.toLowerCase s.
Proof.
  induction s as [|c s IH]; simpl; [reflexivity|].
  now rewrite lowerChar_idem, IH.
Qed.

(** X1: the map built from a word list is the multiset of the list: a lookup
    gives the number of occurrences of a word that occurs and nothing for a
    word that does not, no key is held twice, and the counts add up to the
    number of words. *)
Theorem createWordMap_is_multiset (ws : list string) (k : string) :
  WordMap.get (createWordMap ws) k =
    (if existsb (String.eqb k) ws then Some (count_occ string_dec ws k) else None)
  /\ WordMap.has (createWordMap ws) k = existsb (String.eqb k) ws
  /\ NoDup (WordMap.keys (createWordMap ws))
  /\ list_sum (map snd (createWordMap ws)) = List.length ws.
Proof.
  assert (existsb (String.eqb k) ws = negb (count_occ string_dec ws k =? 0)) as Hex.
  { destruct (existsb (String.eqb k) ws) eqn:E.
    - apply existsb_exists in E. destruct E as (x & Hin & Hx).
      apply String.eqb_eq in Hx. subst x.
      apply (count_occ_In string_dec) in Hin.
      symmetry. apply negb_true_iff, Nat.eqb_neq. lia.
    - symmetry. apply negb_false_iff, Nat.eqb_eq.
      apply (count_occ_not_In string_dec). intros Hin.
      assert (existsb (String.eqb k) ws = true) as Ht; [|congruence].
      apply existsb_exists. exists k. split; [exact Hin | apply String.eqb_refl]. }
  split; [|split; [|split]].
  - rewrite get_createWordMap, Hex.
    now destruct (count_occ string_dec ws k =? 0).
  - now rewrite has_createWordMap, Hex.
  - apply nodup_keys_createWordMap.
  - apply values_sum_createWordMap.
Qed.

(** X2: the scorer ignores letter case: strings that are equal once
    lower-cased score the same against strings that are equal once
    lower-cased. *)
Theorem scorer_ignores_case (a a' b b' : string) :
  Js.toLowerCase a = Js.toLowerCase a' ->
  Js.toLowerCase b = Js.toLowerCase b' ->
  analyzeMessageSimilarity a b = analyzeMessageSimilarity a' b'.
Proof.
  intros Ha Hb. rewrite !analyzeMessageSimilarity_formula.
  unfold words. now rewrite Ha, Hb.
Qed.

Lemma scorer_ignores_case_witness :
  analyzeMessageSimilarity "The Cat SAT" "the cat sat" =
  analyzeMessageSimilarity "the cat sat" "THE CAT sat".
Proof.
  apply (scorer_ignores_case "The Cat SAT" "the cat sat" "the cat sat" "THE CAT sat");
    reflexivity.
Defined.

(** X3: the scorer ignores the order of the words and the spacing between
    them: it depends on the two bags of words only. *)
Theorem scorer_ignores_word_order (a a' b b' : string) :
  Permutation (words a) (words a') ->
  Permutation (words b) (words b') ->
  analyzeMessageSimilarity a b = analyzeMessageSimilarity a' b'.
Proof.
  intros Ha Hb. rewrite !analyzeMessageSimilarity_formula.
  rewrite (commonWords_perm _ _ _ _ Ha Hb).
  now rewrite (Permutation_length Ha), (Permutation_length Hb).
Qed.

Lemma scorer_ignores_word_order_witness :
  analyzeMessageSimilarity "the cat sat" "a dog" =
  analyzeMessageSimilarity " cat  the sat " "dog a".
Proof.
  apply (scorer_ignores_word_order "the cat sat" " cat  the sat " "a dog" "dog a").
  - change (words "the cat sat") with ["the"; "cat"; "sat"].
    change (words " cat  the sat ") with ["cat"; "the"; "sat"].
    apply perm_swap.
  - change (words "a dog") with ["a"; "dog"].
    change (words "dog a") with ["dog"; "a"].
    apply perm_swap.
Defined.

(** X4: a message is found repetitive only when both strings have words,
    more than 60% of the longer one's words are matched, and so the two word
    counts are within a factor 5/3 of each other. *)
Theorem scorer_true_bounds (msg prompt : string) :
  analyzeMessageSimilarity msg prompt = true ->
  words msg <> [] /\ words prompt <> [] /\
  3 * Nat.max (List.length (words msg)) (List.length (words prompt)) <
  5 * Nat.min (List.length (words msg)) (List.length (words prompt)).
Proof.
  rewrite analyzeMessageSimilarity_formula, ratioAbove_spec.
  intros H. apply andb_true_iff in H. destruct H as [Hm Hlt].
  apply Nat.ltb_lt in Hlt.
  pose proof (commonWords_le_l (words msg) (words prompt)) as Hl.
  pose proof (commonWords_le_l (words prompt) (words msg)) as Hr.
  rewrite <- commonWords_comm in Hr.
  assert (3 * Nat.max (List.length (words msg)) (List.length (words prompt)) <
          5 * Nat.min (List.length (words msg)) (List.length (words prompt))) as Hb by lia.
  split; [|split; [|exact Hb]].
  - intros E. rewrite E in Hb. simpl in Hb. lia.
  - intros E. rewrite E in Hb. simpl in Hb. lia.
Qed.

Lemma scorer_true_bounds_witness :
  words "the cat sat" <> [] /\
  3 * Nat.max (List.length (words "the cat sat")) (List.length (words "the cat sat down")) <
  5 * Nat.min (List.length (words "the cat sat")) (List.length (words "the cat sat down")).
Proof.
  destruct (scorer_true_bounds "the cat sat" "the cat sat down") as (H1 & _ & H3).
  - vm_compute. reflexivity.
  - split; [exact H1 | exact H3].
Defined.

End ScorerCoverage.

(** * Further properties of the chat handler (route.ts, lines 46-186) *)

Section FirstLine.

Lemma split_head (sep : ascii) (s : string) :
  exists h t rest,
    Js.split sep s = h :: t /\ free sep h /\ s = (h ++ rest)%string /\
    (rest = EmptyString \/ exists r, rest = String sep r).
Proof.
  induction s as [|c s IH].
  - exists EmptyString, [], EmptyString. simpl. auto.
  - simpl. destruct (Ascii.eqb c sep) eqn:E.
    + apply Ascii.eqb_eq in E. subst c.
      exists EmptyString, (Js.split sep s), (String sep s). simpl.
      repeat split; auto. right. now exists s.
    + destruct IH as (h & t & rest & Hs & Hfree & Heq & Hrest).
      rewrite Hs. exists (String c h), t, rest. simpl.
      repeat split; auto. now rewrite Heq at 1.
Qed.

(** X5: the reply kept from the model output is its first line: the output
    starts with it, it holds no line feed, and what follows it in the output,
    if anything, starts with a line feed. *)
Theorem finalResponse_is_first_line (out : ModelOutput) :
  exists rest,
    String_ out = (finalResponseOf out ++ rest)%string /\
    free Js.LF (finalResponseOf out) /\
    (rest = EmptyString \/ exists r, rest = String Js.LF r).
Proof.
  unfold finalResponseOf.
  destruct (split_head Js.LF (String_ out)) as (h & t & rest & Hs & Hfree & Heq & Hrest).
  rewrite Hs. simpl hd. exists rest. auto.
Qed.

End FirstLine.

Section ClockFacts.

Lemma onSchedule_start :
  onSchedule {| now := 0; timer := Pending (0 + CONFIG.TIMEOUT_MS); aborted := false |}.
Proof. left. repeat split. Qed.

Lemma onSchedule_tick (t : N) (c : Clock) : onSchedule c -> onSchedule (tick t c).
Proof.
  unfold onSchedule, tick.
  intros [(Ht & Hn & Ha) | (Ht & Hn & Ha)]; rewrite Ht.
  - destruct (30000 <=? N.max (now c) t)%N eqn:E.
    + apply N.leb_le in E. right. simpl. auto.
    + apply N.leb_gt in E. left. simpl. auto.
  - right. simpl. repeat split; auto. lia.
Qed.

End ClockFacts.

Section UncaughtClock.

Variable P : Clock -> Prop.
Hypothesis P_start :
  P {| now := 0; timer := Pending (0 + CONFIG.TIMEOUT_MS); aborted := false |}.
Hypothesis P_tick : forall t c, P c -> P (tick t c).

(** Whatever holds of the clock when the timer is set and is kept by the
    passing of time holds when the handler answers anything but the 500: on
    those paths nothing else touches the clock. *)
Lemma uncaught_clock_invariant (w : World) :
  forall r, responseOf w = Value r -> (statusOf r =? 500) = false ->
  P (clock (fst (run w))).
Proof.
  on_run w; intros r Hr; inversion Hr; subst r; cbn [statusOf Nat.eqb]; intros Hst;
    try discriminate Hst; repeat apply P_tick; exact P_start.
Qed.

End UncaughtClock.

Section HandlerCoverage.

(** X6: a request without an identified user (no user, no first name or no
    id) is answered 401 before any collaborator is called: no rate-limit
    check, no database access, no memory operation. *)
Theorem unauthenticated_makes_no_call (w : World) (t1 t2 : N) (prompt : string)
    (u : option User) :
  json w = Fulfils t1 prompt ->
  currentUser w = Fulfils t2 u ->
  identified u = None ->
  responseOf w = Value (NextResponse "Unauthorized" 401) /\ callsOf w = [].
Proof. intros Hj Hu Hid. on_run w; split; reflexivity. Qed.

Lemma unauthenticated_makes_no_call_witness :
  responseOf anonymous = Value (NextResponse "Unauthorized" 401) /\
  callsOf anonymous = [].
Proof.
  apply (unauthenticated_makes_no_call anonymous 1 2 "hi there" None); reflexivity.
Defined.

(** X7: when the companion is not found the answer is 404 and nothing is
    written or generated: the only calls are the rate-limit check, the
    lookup and the acquisition of the memory manager. *)
Theorem unknown_companion_touches_nothing (w : World) (t1 t2 t3 t4 t5 : N)
    (prompt : string) (u : option User) (usr : User) (mm : unit) :
  json w = Fulfils t1 prompt ->
  currentUser w = Fulfils t2 u ->
  identified u = Some usr ->
  ratelimit w = Fulfils t3 true ->
  findUnique w = Fulfils t4 None ->
  getInstance w = Fulfils t5 mm ->
  responseOf w = Value (NextResponse "Companion not found" 404) /\
  callsOf w =
    [RateLimit (url w ++ "-" ++ uid usr)%string;
     FindUnique (chatId w) (uid usr) 10;
     GetInstance].
Proof. intros Hj Hu Hid Hr Hf Hm. on_run w; split; reflexivity. Qed.

Lemma unknown_companion_touches_nothing_witness :
  responseOf unknownCompanion = Value (NextResponse "Companion not found" 404) /\
  callsOf unknownCompanion =
    [RateLimit "http://h/api/chat/c1-u1"; FindUnique "c1" "u1" 10; GetInstance].
Proof.
  apply (unknown_companion_touches_nothing unknownCompanion 1 2 5 7 3
           "hi there" (Some ann) ann tt); reflexivity.
Defined.

(** X8: every response is the 200 stream, 401, 404, 429 or the 500
    "Internal Error"; the handler logs "[CHAT_POST]" exactly when it answers
    500, and then once. *)
Theorem error_logged_iff_500 (w : World) (r : Response) :
  responseOf w = Value r ->
  (r = NextResponse "Internal Error" 500 /\
   filter isErrorLog (callsOf w) = [ConsoleError "[CHAT_POST]"]) \/
  (In (statusOf r) [200; 401; 404; 429] /\ filter isErrorLog (callsOf w) = []).
Proof.
  on_run w; intros Hr; inversion Hr; subst;
    first [ left; split; reflexivity
          | right; split; [simpl; tauto | reflexivity] ].
Qed.

Lemma error_logged_iff_500_witness :
  filter isErrorLog (callsOf userTurnLost) = [ConsoleError "[CHAT_POST]"] /\
  filter isErrorLog (callsOf quick) = [].
Proof.
  split.
  - destruct (error_logged_iff_500 userTurnLost _ eq_refl) as [[_ H] | [H _]].
    + exact H.
    + exfalso. simpl in H. intuition discriminate.
  - destruct (error_logged_iff_500 quick _ eq_refl) as [[H _] | [_ H]].
    + discriminate H.
    + exact H.
Defined.

(** X9: the user turn is written exactly by the requests that pass the
    gates (identity, rate limit, companion found), once, with the prompt as
    content and the role "user"; a request stopped at a gate writes none. *)
Theorem user_turn_written_once_past_gates (w : World) :
  filter isUserTurn (callsOf w) =
  match admission w with
  | Some (prompt, usr, c) => [MessageCreate prompt user (uid usr) (id c)]
  | None => []
  end.
Proof. explore w; stages; reflexivity. Qed.

(** X10: when the reply has more than one character and both writes
    succeed, the caller is streamed the reply as generated, while the
    history line and the system turn hold the reply trimmed. *)
Theorem reply_persisted_trimmed (w : World) (prompt : string) (usr : User)
    (c : Companion) (t t1 t2 : N) (out : ModelOutput) (u1 u2 : unit) :
  reachesGeneration w = Some (prompt, usr, c) ->
  replicateRun w = Fulfils t out ->
  1 < String.length (finalResponseOf out) ->
  writeToHistory w = Fulfils t1 u1 ->
  companionUpdate w = Fulfils t2 u2 ->
  responseOf w = Value (StreamingTextResponse [finalResponseOf out]) /\
  filter isPersistence (callsOf w) =
    [WriteToHistory
       ("User: " ++ prompt ++ Js.nl ++ Js.trim (finalResponseOf out))%string
       {| companionName := id c; userId := uid usr;
          modelName := "meta/meta-llama-3-8b-instruct" |};
     CompanionUpdate (chatId w) (Js.trim (finalResponseOf out)) system (uid usr)].
Proof.
  intros Hreach Hrun Hlen Hw Hu.
  assert ((1 <? String.length (finalResponseOf out)) = true) as Hgo
    by (apply Nat.ltb_lt; exact Hlen).
  reach Hreach; inversion Hreach; subst; on_run w; split; reflexivity.
Qed.

Lemma reply_persisted_trimmed_witness :
  responseOf quick = Value (StreamingTextResponse ["Hello there"]) /\
  filter isPersistence (callsOf quick) =
    [WriteToHistory ("User: hi there" ++ Js.nl ++ "Hello there")%string
       {| companionName := "c1"; userId := "u1";
          modelName := "meta/meta-llama-3-8b-instruct" |};
     CompanionUpdate "c1" "Hello there" system "u1"].
Proof.
  apply (reply_persisted_trimmed quick "hi there" ann bot 900 3 4 (Text rambling) tt tt);
    try reflexivity.
  vm_compute. lia.
Defined.

(** X11: when one of the two writes fails after the reply was generated,
    the caller gets the generic 500 error instead of the reply, although both
    writes were started; nothing undoes the one that may have succeeded. *)
Theorem persistence_failure_loses_reply (w : World) (prompt : string) (usr : User)
    (c : Companion) (t : N) (out : ModelOutput) :
  reachesGeneration w = Some (prompt, usr, c) ->
  replicateRun w = Fulfils t out ->
  1 < String.length (finalResponseOf out) ->
  (exists t', writeToHistory w = Rejects t') \/
  (exists t', companionUpdate w = Rejects t') ->
  responseOf w = Value (NextResponse "Internal Error" 500) /\
  filter isPersistence (callsOf w) =
    [WriteToHistory
       ("User: " ++ prompt ++ Js.nl ++ Js.trim (finalResponseOf out))%string
       {| companionName := id c; userId := uid usr;
          modelName := "meta/meta-llama-3-8b-instruct" |};
     CompanionUpdate (chatId w) (Js.trim (finalResponseOf out)) system (uid usr)].
Proof.
  intros Hreach Hrun Hlen Hfail.
  assert ((1 <? String.length (finalResponseOf out)) = true) as Hgo
    by (apply Nat.ltb_lt; exact Hlen).
  destruct Hfail as [[t' Hfail] | [t' Hfail]];
    reach Hreach; inversion Hreach; subst; on_run w; split; reflexivity.
Qed.

Lemma persistence_failure_loses_reply_witness :
  responseOf appendDown = Value (NextResponse "Internal Error" 500).
Proof.
  apply (persistence_failure_loses_reply appendDown "hi there" ann bot 900 (Text rambling));
    try reflexivity.
  - vm_compute. lia.
  - left. exists 3%N. reflexivity.
Defined.

(** X12: the guard of line 154 tests the reply as generated, the writes
    store it trimmed: a reply of more than one character that is all white
    space is stored as an empty system turn. *)
Theorem blank_reply_stored_empty (w : World) (prompt : string) (usr : User)
    (c : Companion) (t : N) (out : ModelOutput) :
  reachesGeneration w = Some (prompt, usr, c) ->
  replicateRun w = Fulfils t out ->
  1 < String.length (finalResponseOf out) ->
  Js.trim (finalResponseOf out) = EmptyString ->
  filter isSystemTurn (callsOf w) =
    [CompanionUpdate (chatId w) EmptyString system (uid usr)].
Proof.
  intros Hreach Hrun Hlen Htrim.
  assert ((1 <? String.length (finalResponseOf out)) = true) as Hgo
    by (apply Nat.ltb_lt; exact Hlen).
  reach Hreach; inversion Hreach; subst; on_run w; rewrite ?Htrim; reflexivity.
Qed.

Lemma blank_reply_stored_empty_witness :
  filter isSystemTurn (callsOf blank) = [CompanionUpdate "c1" "" system "u1"].
Proof.
  apply (blank_reply_stored_empty blank "hi there" ann bot 900 (Text "   "));
    try reflexivity.
  vm_compute. lia.
Defined.

(** X13: on every answer other than the 500 the deadline timer is exactly
    where the clock puts it: still pending, signal not aborted, when the
    handler returns before 30000 ms, and fired, signal aborted, when it
    returns later; in neither case was anything cancelled. *)
Theorem timer_follows_clock (w : World) (r : Response) :
  responseOf w = Value r ->
  statusOf r <> 500 ->
  ((elapsed w < 30000)%N -> timerAfter w = Pending 30000 /\ abortedAfter w = false) /\
  ((30000 <= elapsed w)%N -> timerAfter w = Fired /\ abortedAfter w = true).
Proof.
  intros Hr Hst.
  assert ((statusOf r =? 500) = false) as Hb by (apply Nat.eqb_neq; exact Hst).
  pose proof (uncaught_clock_invariant onSchedule onSchedule_start onSchedule_tick
                w r Hr Hb) as Hs.
  unfold elapsed, timerAfter, abortedAfter.
  destruct Hs as [(Ht & Hn & Ha) | (Ht & Hn & Ha)]; rewrite Ht, Ha;
    split; intros Hcmp; try (exfalso; lia); split; reflexivity.
Qed.

Lemma timer_follows_clock_witness :
  (timerAfter quick = Pending 30000 /\ abortedAfter quick = false) /\
  (timerAfter slow = Fired /\ abortedAfter slow = true).
Proof.
  split.
  - apply (timer_follows_clock quick _ eq_refl); [discriminate | vm_compute; reflexivity].
  - apply (timer_follows_clock slow _ eq_refl); [discriminate | vm_compute; discriminate].
Defined.

End HandlerCoverage.

(** * Instances of the general facts of the chat handler *)

Section StageWitnesses.

Lemma generation_call_witness :
  filter isGeneration (callsOf quick) =
  [ReplicateRun CONFIG.MODELS_default
     (generationPrompt bot "hi there" (messageHistory bot (messages bot)))
     CONFIG.MAX_LENGTH].
Proof. apply (generation_call quick "hi there" ann bot). reflexivity. Defined.

Lemma silent_generation_hangs_witness :
  responseOf (withReplicateRun quick Never) = Stuck.
Proof. apply (silent_generation_hangs quick). vm_compute. discriminate. Defined.

Lemma timer_cleared_only_when_caught_witness :
  (forall t, timerAfter userTurnLost <> Pending t) /\ timerAfter quick <> Cleared.
Proof.
  split.
  - apply (proj1 (timer_cleared_only_when_caught userTurnLost
                    (NextResponse "Internal Error" 500) eq_refl)).
    reflexivity.
  - apply (proj2 (timer_cleared_only_when_caught quick
                    (StreamingTextResponse ["Hello there"]) eq_refl)).
    discriminate.
Defined.

End StageWitnesses.

(** * Properties of the companion route (companion route.ts, lines 6-82) *)

Module CompanionRouteFacts.
Import CompanionRoute.

Ltac run_route :=
  lazy beta iota zeta
       delta [patch del PATCH DELETE tryCatch bind call emit await ret throw
              fst snd app].

Ltac case_on x :=
  match goal with
  | |- context [match x with _ => _ end] => destruct x; run_route
  end.

Ltac cases :=
  repeat match goal with
         | w : PatchWorld |- _ =>
             first [ case_on (json w) | case_on (currentUser w) | case_on (update w) ]
         | w : DeleteWorld |- _ =>
             first [ case_on (auth w) | case_on (params w) | case_on (delete w) ]
         | |- context [match ?x with Some _ => _ | None => _ end] => destruct x; run_route
         | p : (_ * _)%type |- _ => destruct p; run_route
         end.

Ltac no_such_call :=
  let H := fresh "Hin" in
  intros H; simpl in H;
  repeat (destruct H as [H|H]; try discriminate H); contradiction.

Lemma truthy_some (o : option string) (s : string) :
  truthy o = Some s -> o = Some s /\ s <> EmptyString.
Proof.
  destruct o as [[|c r]|]; simpl; intros H; inversion H; subst.
  split; [reflexivity | discriminate].
Qed.

Lemma fields_some (b : Body) (s n d i sd c : string) :
  fields b = Some (s, n, d, i, sd, c) ->
  truthy (src b) = Some s /\ truthy (name b) = Some n /\
  truthy (description b) = Some d /\ truthy (instructions b) = Some i /\
  truthy (seed b) = Some sd /\ truthy (categoryId b) = Some c.
Proof.
  unfold fields.
  destruct (truthy (src b)), (truthy (name b)), (truthy (description b)),
    (truthy (instructions b)), (truthy (seed b)), (truthy (categoryId b));
    intros H; inversion H; subst; auto 10.
Qed.

Lemma caller_some (u : option User) (i fn : string) :
  caller u = Some (i, fn) ->
  exists usr, u = Some usr /\ uid usr = i /\ i <> EmptyString /\
              firstName usr = Some fn /\ fn <> EmptyString.
Proof.
  unfold caller. destruct u as [usr|]; [|discriminate].
  destruct (Js.falsy (uid usr)) eqn:Hf; [discriminate|].
  destruct (truthy (firstName usr)) as [f|] eqn:Ht; [|discriminate].
  intros H. inversion H; subst. apply truthy_some in Ht. destruct Ht as [Hfn Hne].
  exists usr. repeat split; auto.
  intros E. rewrite E in Hf. discriminate.
Qed.

(** X14: [PATCH] writes to the database at most once, and only a row that
    the caller owns: every update has the id of the route, is scoped to the
    id of the identified caller, which is also the [userId] it writes, takes
    the caller's first name as [userName], and carries the six properties of
    the body, none of them empty. *)
Theorem patch_updates_only_own_companion (w : PatchWorld) (cid uidW : string) (data : Data) :
  In (Update cid uidW data) (fst (patch w)) ->
  filter isUpdate (fst (patch w)) = [Update cid uidW data] /\
  companionId w = Some cid /\ cid <> EmptyString /\
  (exists t usr, currentUser w = Fulfils t (Some usr) /\
                 uid usr = uidW /\ uidW <> EmptyString /\
                 d_userId data = uidW /\ firstName usr = Some (d_userName data)) /\
  (exists t b, json w = Fulfils t (Some b) /\
               src b = Some (d_src data) /\ d_src data <> EmptyString /\
               name b = Some (d_name data) /\ d_name data <> EmptyString /\
               description b = Some (d_description data) /\
               d_description data <> EmptyString /\
               instructions b = Some (d_instructions data) /\
               d_instructions data <> EmptyString /\
               seed b = Some (d_seed data) /\ d_seed data <> EmptyString /\
               categoryId b = Some (d_categoryId data) /\
               d_categoryId data <> EmptyString).
Proof.
  run_route.
  destruct (json w) as [t1 [b|]| |] eqn:Hj; cbn [fst snd app];
    destruct (currentUser w) as [t2 u| |] eqn:Hu; cbn [fst snd app];
    try solve [no_such_call].
  destruct (truthy (companionId w)) as [c|] eqn:Hc; cbn [fst snd app];
    [|no_such_call].
  destruct (caller u) as [[i fn]|] eqn:Hcal; cbn [fst snd app];
    [|no_such_call].
  destruct (fields b) as [[[[[[s n] d] ins] sd] cat]|] eqn:Hf; cbn [fst snd app];
    [|no_such_call].
  apply truthy_some in Hc. destruct Hc as [Hc Hcne].
  apply caller_some in Hcal. destruct Hcal as (usr & -> & Hi & Hine & Hfn & Hfnne).
  apply fields_some in Hf. destruct Hf as (H1 & H2 & H3 & H4 & H5 & H6).
  apply truthy_some in H1, H2, H3, H4, H5, H6.
  destruct H1, H2, H3, H4, H5, H6.
  destruct (update w) as [t3 row| |]; cbn [fst snd app isUpdate filter];
    intros Hin; simpl in Hin;
    repeat (destruct Hin as [Hin|Hin]; try discriminate Hin); try contradiction;
    inversion Hin; subst; clear Hin;
    (split; [reflexivity|]; split; [assumption|]; split; [assumption|];
     split; [exists t2, usr; auto 10 | exists t1, b; auto 20]).
Qed.

Lemma patch_updates_only_own_companion_witness :
  filter isUpdate (fst (patch goodPatch)) =
  [Update "c1" "u1"
     {| d_categoryId := "cat1"; d_userId := "u1"; d_userName := "Ann";
        d_src := "https://img/bot.png"; d_name := "Bot";
        d_description := "A kind bot"; d_instructions := "Be kind.";
        d_seed := "Human: hi" |}].
Proof.
  apply (patch_updates_only_own_companion goodPatch).
  vm_compute. right. left. reflexivity.
Defined.

(** X15: a [PATCH] without a companion id is answered 400 "Companion ID is
    Required." whoever the caller is, identified or not: the id is checked
    before the identity, and the name and image of the body have been logged
    by then.  Nothing is written. *)
Theorem patch_checks_id_before_identity (w : PatchWorld) (t1 t2 : N) (b : Body)
    (u : option User) :
  json w = Fulfils t1 (Some b) ->
  currentUser w = Fulfils t2 u ->
  truthy (companionId w) = None ->
  patch w = ([ConsoleLog (name b) (src b)],
             Value (Plain "Companion ID is Required." 400)).
Proof. intros Hj Hu Hc. run_route. now rewrite Hj, Hu, Hc. Qed.

Lemma patch_checks_id_before_identity_witness :
  patch strangerNoId =
  ([ConsoleLog (Some "Bot") (Some "https://img/bot.png")],
   Value (Plain "Companion ID is Required." 400)).
Proof.
  apply (patch_checks_id_before_identity strangerNoId 1 2 fullBody None); reflexivity.
Defined.

(** X16: a [PATCH] whose body is the JSON value null is answered with the
    generic 500 error, not with a 400: destructuring it throws once the user
    lookup has resolved.  Nothing but the error is logged. *)
Theorem patch_null_body_is_internal_error (w : PatchWorld) (t1 t2 : N) (u : option User) :
  json w = Fulfils t1 None ->
  currentUser w = Fulfils t2 u ->
  patch w = ([LogError "[COMPANION_PATCH]"], Value (Plain "Internal Error" 500)).
Proof. intros Hj Hu. run_route. now rewrite Hj, Hu. Qed.

Lemma patch_null_body_is_internal_error_witness :
  patch nullBody = ([LogError "[COMPANION_PATCH]"], Value (Plain "Internal Error" 500)).
Proof.
  apply (patch_null_body_is_internal_error nullBody 1 2 (Some ann)); reflexivity.
Defined.

(** X17: [DELETE] deletes at most once and only within the rows of the
    signed-in user: every delete is scoped to the non-empty user id of the
    session and to the id of the route parameters. *)
Theorem delete_scoped_to_session_user (w : DeleteWorld) (uidW : string)
    (cid : option string) :
  In (Delete uidW cid) (fst (del w)) ->
  filter isDelete (fst (del w)) = [Delete uidW cid] /\
  uidW <> EmptyString /\
  (exists t, auth w = Fulfils t (Some uidW)) /\
  (exists t, params w = Fulfils t cid).
Proof.
  run_route.
  destruct (auth w) as [t1 su| |] eqn:Ha; cbn [fst snd app];
    try solve [no_such_call].
  destruct (truthy su) as [i|] eqn:Hs; cbn [fst snd app]; [|no_such_call].
  apply truthy_some in Hs. destruct Hs as [-> Hne].
  destruct (params w) as [t2 c| |] eqn:Hp; cbn [fst snd app];
    try solve [no_such_call].
  destruct (delete w) as [t3 row| |]; cbn [fst snd app isDelete filter];
    intros Hin; simpl in Hin;
    repeat (destruct Hin as [Hin|Hin]; try discriminate Hin); try contradiction;
    inversion Hin; subst; clear Hin;
    (split; [reflexivity|]; split; [assumption|]; split; eauto).
Qed.

Lemma delete_scoped_to_session_user_witness :
  filter isDelete (fst (del goodDelete)) = [Delete "u1" (Some "c1")].
Proof.
  apply (delete_scoped_to_session_user goodDelete).
  vm_compute. left. reflexivity.
Defined.

(** X18: a [DELETE] without a signed-in user is answered 401 at once: the
    route parameters are not awaited and the database is not called,
    whatever they would have answered. *)
Theorem delete_signed_out_is_401 (w : DeleteWorld) (t : N) (su : option string) :
  auth w = Fulfils t su ->
  truthy su = None ->
  del w = ([], Value (Plain "Unauthorized" 401)).
Proof. intros Ha Hs. run_route. now rewrite Ha, Hs. Qed.

Lemma delete_signed_out_is_401_witness :
  del signedOutDelete = ([], Value (Plain "Unauthorized" 401)).
Proof.
  apply (delete_signed_out_is_401 signedOutDelete 1 None); reflexivity.
Defined.

(** X19: the chat route and the [PATCH] route identify the same callers: a
    user object passes the check of one exactly when it passes the check of
    the other, although the two test the id and the first name in opposite
    orders. *)
Theorem routes_identify_same_callers (u : option User) :
  caller u = match identified u with
             | Some usr =>
                 match firstName usr with
                 | Some fn => Some (uid usr, fn)
                 | None => None
                 end
             | None => None
             end.
Proof.
  unfold caller, identified.
  destruct u as [[[[|c fn]|] [|d i]]|]; reflexivity.
Qed.

(** X20: both handlers log their error tag exactly when they answer 500,
    and answer nothing outside 200, 400, 401 and 500. *)
Theorem companion_routes_log_iff_500 :
  (forall (w : PatchWorld) (r : Reply),
     snd (patch w) = Value r ->
     In (statusOf r) [200; 400; 401; 500] /\
     filter (fun c => match c with LogError _ => true | _ => false end) (fst (patch w)) =
       if statusOf r =? 500 then [LogError "[COMPANION_PATCH]"] else []) /\
  (forall (w : DeleteWorld) (r : Reply),
     snd (del w) = Value r ->
     In (statusOf r) [200; 401; 500] /\
     filter (fun c => match c with LogError _ => true | _ => false end) (fst (del w)) =
       if statusOf r =? 500 then [LogError "[COMPANION_DELETE]"] else []).
Proof.
  split; intros w r; run_route; cases;
    intros H; inversion H; subst; simpl; auto 10.
Qed.

Lemma companion_routes_log_iff_500_witness :
  filter (fun c => match c with LogError _ => true | _ => false end)
         (fst (patch nullBody)) = [LogError "[COMPANION_PATCH]"].
Proof.
  exact (proj2 (proj1 companion_routes_log_iff_500 nullBody _ eq_refl)).
Defined.

End CompanionRouteFacts.

(** * Properties of the emoji filter (chat view, [transformTextToEmoji]) *)

Module ChatMessagesFacts.
Import ChatMessages.

#[local] Arguments reactionAt : simpl never.

Example transform_examples :
  transformTextToEmoji (Some "*Smiles* Hello *waves hand* there") = "😊 Hello  there" /\
  transformTextToEmoji (Some "nods and *smiles warmly*") = "🙂 and 😊 warmly*" /\
  transformTextToEmoji None = "".
Proof. repeat split; vm_compute; reflexivity. Qed.

Lemma star_code (c : ascii) : Ascii.eqb c STAR = true -> nat_of_ascii c = 42.
Proof. intros E. apply Ascii.eqb_eq in E. now subst c. Qed.

Lemma not_star (c : ascii) (n : nat) :
  (nat_of_ascii c =? n) = true -> n <> 42 -> Ascii.eqb c STAR = false.
Proof.
  intros Hn Hne. destruct (Ascii.eqb c STAR) eqn:E; [|reflexivity].
  apply star_code in E. apply Nat.eqb_eq in Hn. congruence.
Qed.

(** A line terminator is copied as it stands. *)
Lemma lineBreakAt_kept (s : string) :
  lineBreakAt s = true -> lineBreakAt (removeStarred false s) = true.
Proof.
  destruct s as [|c s']; [discriminate|].
  unfold lineBreakAt at 1.
  destruct ((nat_of_ascii c =? 10) || (nat_of_ascii c =? 13)) eqn:E1.
  - intros _.
    assert (Ascii.eqb c STAR = false) as Hc.
    { apply orb_true_iff in E1. destruct E1 as [E|E];
        [apply (not_star c 10) | apply (not_star c 13)]; auto; discriminate. }
    simpl. rewrite Hc. simpl. now rewrite E1.
  - destruct (nat_of_ascii c =? 226) eqn:E2; [|discriminate].
    destruct s' as [|d [|e r]]; try discriminate.
    intros H. apply andb_true_iff in H. destruct H as [Hd He].
    assert (Ascii.eqb c STAR = false) as Hc by (apply (not_star c 226); auto; discriminate).
    assert (Ascii.eqb d STAR = false) as Hd' by (apply (not_star d 128); auto; discriminate).
    assert (Ascii.eqb e STAR = false) as He'.
    { apply orb_true_iff in He. destruct He as [E|E];
        [apply (not_star e 168) | apply (not_star e 169)]; auto; discriminate. }
    simpl. rewrite Hc, Hd', He'. simpl. now rewrite E1, E2, Hd, He.
Qed.

Lemma closing_none_kept (s : string) :
  closing s = None -> closing (removeStarred false s) = None.
Proof.
  induction s as [|c s' IH]; [reflexivity|].
  cbn [closing]. destruct (Ascii.eqb c STAR) eqn:Ec; [discriminate|].
  destruct (lineBreakAt (String c s')) eqn:Eb.
  - intros _. pose proof (lineBreakAt_kept _ Eb) as Hk.
    cbn [removeStarred] in Hk |- *. rewrite Ec in Hk |- *.
    cbn [closing]. now rewrite Ec, Hk.
  - intros Hc. cbn [removeStarred]. rewrite Ec. cbn [closing]. rewrite Ec.
    destruct (lineBreakAt (String c (removeStarred false s'))); [reflexivity | auto].
Qed.

Lemma unclosed_removeStarred (s : string) (inside : bool) :
  unclosed (removeStarred inside s).
Proof.
  revert inside. induction s as [|c s' IH]; intros inside; [exact I|].
  cbn [removeStarred]. destruct inside.
  - destruct (Ascii.eqb c STAR); apply IH.
  - destruct (Ascii.eqb c STAR) eqn:Ec.
    + destruct (closing s') eqn:Ecl; [apply IH|].
      cbn [unclosed]. split; [|apply IH].
      intros _. now apply closing_none_kept.
    + cbn [unclosed]. split; [|apply IH]. rewrite Ec. discriminate.
Qed.

Lemma unclosed_fixed (s : string) : unclosed s -> removeStarred false s = s.
Proof.
  induction s as [|c s' IH]; [reflexivity|].
  cbn [unclosed removeStarred]. intros [Hc Hs].
  destruct (Ascii.eqb c STAR) eqn:Ec.
  - rewrite (Hc eq_refl). now rewrite IH.
  - now rewrite IH.
Qed.

Lemma unclosed_at (s pre post : string) :
  unclosed s -> s = (pre ++ String STAR post)%string -> closing post = None.
Proof.
  revert s. induction pre as [|c pre IH]; intros s Hs Heq; subst s.
  - cbn [String.append unclosed] in Hs. destruct Hs as [Hc _]. now apply Hc.
  - cbn [String.append unclosed] in Hs. destruct Hs as [_ Hs]. now apply (IH _ Hs).
Qed.

Lemma unclosed_transform (x : option string) : unclosed (transformTextToEmoji x).
Proof.
  destruct x as [[|c t]|]; try exact I. apply unclosed_removeStarred.
Qed.

(** X21: in the text shown, no asterisk is followed on its line by another
    one: every [*...*] span of a line has been removed, whatever the input,
    and removing such spans once more changes nothing. *)
Theorem no_starred_span_survives (x : option string) :
  (forall pre post,
     transformTextToEmoji x = (pre ++ String STAR post)%string -> closing post = None) /\
  removeStarred false (transformTextToEmoji x) = transformTextToEmoji x.
Proof.
  split.
  - intros pre post Heq. exact (unclosed_at _ pre post (unclosed_transform x) Heq).
  - apply unclosed_fixed, unclosed_transform.
Qed.

Lemma no_starred_span_survives_witness :
  closing " there" = None.
Proof.
  apply (proj1 (no_starred_span_survives (Some "*Smiles* Hello *waves*
* there")) "😊 Hello 
").
  vm_compute. reflexivity.
Defined.

Lemma find_none_of_forallb {A} (p q : A -> bool) (l : list A) :
  forallb (fun x => negb (p x || q x)) l = true ->
  find p l = None /\ forallb (fun x => negb (q x)) l = true.
Proof.
  induction l as [|x l IH]; simpl; [auto|].
  intros H. apply andb_true_iff in H. destruct H as [Hx Hl].
  apply negb_true_iff, orb_false_iff in Hx. destruct Hx as [Hp Hq].
  rewrite Hp, Hq. simpl. auto.
Qed.

Lemma prefix_star (c : ascii) (s : string) :
  String.prefix (String STAR EmptyString) (String c s) = Ascii.eqb c STAR.
Proof.
  cbn [String.prefix]. destruct (ascii_dec _ c) as [E|E].
  - subst c. rewrite Ascii.eqb_refl. now destruct s.
  - symmetry. apply Ascii.eqb_neq. intros E'. apply E. now rewrite E'.
Qed.

Lemma removeStarred_plain (t : string) :
  occursIn (String STAR EmptyString) t = false -> removeStarred false t = t.
Proof.
  induction t as [|c t IH]; [reflexivity|].
  cbn [occursIn]. rewrite prefix_star. intros H.
  apply orb_false_iff in H. destruct H as [Hc Ht].
  cbn [removeStarred]. rewrite Hc. now rewrite IH.
Qed.

Lemma replaceReactions_plain (t : string) :
  occursIn (String STAR EmptyString) t = false ->
  forallb (fun kv => negb (occursIn (fst kv) (Js.toLowerCase t))) reactionToEmoji = true ->
  replaceReactions 0 t = t.
Proof.
  induction t as [|c t IH]; [reflexivity|].
  cbn [occursIn Js.toLowerCase]. rewrite prefix_star. intros Hstar Hnone.
  apply orb_false_iff in Hstar. destruct Hstar as [Hc Ht].
  apply (find_none_of_forallb
           (fun kv => String.prefix (fst kv) (String (Js.lowerChar c) (Js.toLowerCase t)))
           (fun kv => occursIn (fst kv) (Js.toLowerCase t))) in Hnone.
  destruct Hnone as [Hfind Hrest].
  cbn [replaceReactions]. rewrite Hc.
  unfold reactionAt. cbn [Js.toLowerCase]. rewrite Hfind.
  now rewrite (IH Ht Hrest).
Qed.

(** X22: a text without an asterisk and without a reaction word, in any
    letter case, is shown as it is. *)
Theorem plain_text_unchanged (t : string) :
  occursIn (String STAR EmptyString) t = false ->
  forallb (fun kv => negb (occursIn (fst kv) (Js.toLowerCase t))) reactionToEmoji = true ->
  transformTextToEmoji (Some t) = t.
Proof.
  intros Hstar Hnone. destruct t as [|c t]; [reflexivity|].
  unfold transformTextToEmoji.
  rewrite (replaceReactions_plain _ Hstar Hnone).
  now apply removeStarred_plain.
Qed.

Lemma plain_text_unchanged_witness :
  transformTextToEmoji (Some "Hello, how are you today?") = "Hello, how are you today?".
Proof.
  apply (plain_text_unchanged "Hello, how are you today?"); vm_compute; reflexivity.
Defined.

Lemma length_toLowerCase (s : string) :
  String.length (Js.toLowerCase s) = String.length s.
Proof. induction s; simpl; congruence. Qed.

Lemma toLowerCase_app (s r : string) :
  Js.toLowerCase (s ++ r) = (Js.toLowerCase s ++ Js.toLowerCase r)%string.
Proof. induction s; simpl; congruence. Qed.

Lemma drop_app (t r : string) : drop (String.length t) (t ++ r) = r.
Proof. induction t; simpl; auto. Qed.

Lemma length_app (t r : string) :
  String.length (t ++ r) = String.length t + String.length r.
Proof. induction t; simpl; congruence. Qed.

Lemma replaceReactions_skip_all (s : string) (n : nat) :
  String.length s <= n -> replaceReactions n s = EmptyString.
Proof.
  revert n. induction s as [|c s IH]; intros n Hn; [reflexivity|].
  simpl in Hn. destruct n as [|n]; [lia|].
  cbn [replaceReactions]. apply IH. lia.
Qed.

Lemma drop_all (t : string) : drop (String.length t) t = EmptyString.
Proof. induction t; simpl; auto. Qed.

Lemma replace_bare (c : ascii) (t k e : string) :
  Ascii.eqb c STAR = false ->
  reactionAt (String c t) = Some (k, e) ->
  String.length (String c t) = String.length k ->
  replaceReactions 0 (String c t) = e.
Proof.
  intros Hc Hr Hlen.
  assert (drop (String.length k) (String c t) = EmptyString) as Hd
    by (rewrite <- Hlen; apply drop_all).
  cbn [replaceReactions]. rewrite Hc, Hr, Hd. cbn [startsWithStar].
  rewrite replaceReactions_skip_all by (simpl in Hlen; lia).
  apply append_nil_r.
Qed.

Lemma replace_starred (t k e : string) :
  reactionAt (t ++ String STAR EmptyString) = Some (k, e) ->
  String.length t = String.length k ->
  replaceReactions 0 (String STAR (t ++ String STAR EmptyString)) = e.
Proof.
  intros Hr Hlen.
  assert (drop (String.length k) (t ++ String STAR EmptyString) = String STAR EmptyString)
    as Hd by (rewrite <- Hlen; apply drop_app).
  cbn [replaceReactions].
  rewrite (Ascii.eqb_refl STAR), Hr, Hd. cbn [startsWithStar].
  rewrite (Ascii.eqb_refl STAR).
  rewrite replaceReactions_skip_all by (rewrite length_app; simpl; lia).
  apply append_nil_r.
Qed.

(** X23: a reaction word of the table, written in any letter case, alone or
    between asterisks, is shown as its emoji. *)
Theorem reaction_shown_as_emoji (k e t : string) :
  In (k, e) reactionToEmoji ->
  Js.toLowerCase t = k ->
  transformTextToEmoji (Some t) = e /\
  transformTextToEmoji (Some (String STAR (t ++ String STAR EmptyString))) = e.
Proof.
  intros Hin Hlow.
  assert (String.length t = String.length k) as Hlen
    by (rewrite <- Hlow; symmetry; apply length_toLowerCase).
  assert (reactionAt t = Some (k, e) /\
          reactionAt (t ++ String STAR EmptyString) = Some (k, e) /\
          removeStarred false e = e /\
          (forall c r, t = String c r -> Ascii.eqb c STAR = false) /\
          t <> EmptyString) as (H1 & H2 & H3 & H4 & H5).
  { clear Hlen. subst k. unfold reactionAt. rewrite toLowerCase_app.
    simpl in Hin.
    repeat (destruct Hin as [Hin|Hin];
            [inversion Hin as [[Hk He]]; clear Hin; try rewrite <- Hk;
             repeat split; try reflexivity;
             [ intros c r ->; destruct (Ascii.eqb c STAR) eqn:E; [|reflexivity];
               apply Ascii.eqb_eq in E; subst c; vm_compute in Hk; discriminate Hk
             | intros ->; discriminate Hk ]
            | ]).
    contradiction. }
  destruct t as [|c r]; [congruence|].
  split.
  - unfold transformTextToEmoji.
    rewrite (replace_bare c r k e (H4 c r eq_refl) H1 Hlen). exact H3.
  - unfold transformTextToEmoji.
    rewrite (replace_starred (String c r) k e H2 Hlen). exact H3.
Qed.

Lemma reaction_shown_as_emoji_witness :
  transformTextToEmoji (Some "Rolls Eyes") = "🙄" /\
  transformTextToEmoji (Some "*Rolls Eyes*") = "🙄".
Proof.
  apply (reaction_shown_as_emoji "rolls eyes" "🙄" "Rolls Eyes").
  - vm_compute. do 8 right. left. reflexivity.
  - reflexivity.
Defined.

End ChatMessagesFacts.
